(** * OWUI-ReAct: the agent streaming loop of [react_langfuse_pipe.py]

    A shallow embedding of [extract_event_info], [get_send_status],
    [get_send_citation] and [Pipe.pipe], and the properties of the
    event-ordering contract of the tools path. *)

From Stdlib Require Import Ascii String.
From stdpp Require Import base strings list gmap pretty.

Open Scope string_scope.
Open Scope list_scope.

(** ** Python values and exceptions *)

(** The objects that occur as captured variables and as dict values of the
    request information: [None], strings and integers. *)
Inductive pyobj :=
| PyNone
| PyStr (s : string)
| PyInt (z : Z).

(** The exceptions a turn can end with.  [HostError] stands for whatever the
    host's event emitter raises. *)
Inductive exception :=
| KeyError (key : string)
| ValueError (msg : string)
| AssertionError (msg : string)
| HostError (msg : string).

(** ** The host's event emitter *)

(** The dict handed to [__event_emitter__]: a ["status"] event with its
    [description] and [done], or a ["source"] event with its [document] list,
    the [source] and [html] of its only metadata entry and the source
    [name]. *)
Inductive host_event :=
| StatusEvent (description : string) (done : bool)
| SourceEvent (document : list string) (source : string) (html : bool)
    (source_name : string).

(** The contents of one cell of a function's [__closure__]. *)
Inductive cell :=
| CellDict (request_info : gmap string pyobj)
| CellOther (contents : pyobj).

(** An event emitter is a Python function: its [__closure__] ([None] or a
    tuple of cells) and what awaiting a call of it does. [emit i ev] is the
    outcome of the [i]-th call (from 0) of the emitter in the turn, made with
    the dict [ev]: [None] when the awaitable completes, [Some e] when it
    raises [e]. *)
Record emitter := {
  closure : option (list cell);
  emit : nat -> host_event -> option exception
}.

Definition EmitterType := option emitter.

(** ** The observable effects of a turn *)

(** The three f-strings that [Pipe.pipe] passes to [send_status], kept with
    their arguments; [status_text] is the string Python builds. *)
Inductive status :=
| Running (name : string)
| ToolReturned (name : string) (output : string)
| ToolFailed (name : string).

Definition status_text (s : status) : string :=
  match s with
  | Running name => "Running tool " +:+ name
  | ToolReturned name output => "Tool '" +:+ name +:+ "' returned " +:+ output
  | ToolFailed name => "Tool '" +:+ name +:+ "' failed."
  end.

(** A call of one of the two notifier closures. *)
Inductive notifier_call :=
| SendStatus (status_message : status) (done : bool)
| SendCitation (url title content : string).

(** What the consumer of the async generator and the notifier observe, in
    the order in which it happens when the generator is driven to its end. *)
Inductive effect :=
| Yield (fragment : string)
| Notify (call : notifier_call).

Definition trace := list effect.

Definition yielded (tr : trace) : list string :=
  omap (λ e, match e with Yield s => Some s | Notify _ => None end) tr.

Definition notifier_calls (tr : trace) : list notifier_call :=
  omap (λ e, match e with Notify c => Some c | Yield _ => None end) tr.

(** ** The body of an async generator as a state and error monad *)

Inductive completion (A : Type) :=
| Normal (a : A)
| Raised (e : exception).
Arguments Normal {A} a.
Arguments Raised {A} e.

(** A piece of the generator's body: from the effects so far to the effects
    after it, and the value it computes or the exception it raises. *)
Definition gen (A : Type) : Type := trace -> trace * completion A.

Definition gen_ret {A} (a : A) : gen A := λ tr, (tr, Normal a).

Definition gen_bind {A B} (k : A -> gen B) (m : gen A) : gen B :=
  λ tr, match m tr with
        | (tr', Normal a) => k a tr'
        | (tr', Raised e) => (tr', Raised e)
        end.

#[global] Instance gen_mret : MRet gen := @gen_ret.
#[global] Instance gen_mbind : MBind gen := @gen_bind.

Definition yield (fragment : string) : gen unit :=
  λ tr, (tr ++ [Yield fragment], Normal ()).

Definition raise {A} (e : exception) : gen A :=
  λ tr, (tr, Raised e).

(** [for x in xs: st = body st x], stopping at the first exception. *)
Fixpoint for_each {A S} (body : S -> A -> gen S) (st : S) (xs : list A)
  : gen S :=
  match xs with
  | [] => mret st
  | x :: xs' => st' ← body st x; for_each body st' xs'
  end.

(** ** [get_send_status] and [get_send_citation] *)

(** Entering a notifier closure: the call is observed whether or not there
    is an emitter. *)
Definition called (c : notifier_call) : gen unit :=
  λ tr, (tr ++ [Notify c], Normal ()).

(** [await __event_emitter__(ev)] inside a notifier call. Each notifier call
    calls the emitter once, so the call awaited has the number of the
    notifier call entered last. *)
Definition await_emitter (f : emitter) (ev : host_event) : gen unit :=
  λ tr, (tr,
         match emit f (pred (length (notifier_calls tr))) ev with
         | None => Normal ()
         | Some e => Raised e
         end).

Definition get_send_status (__event_emitter__ : EmitterType)
  : status -> bool -> gen unit :=
  λ status_message done,
    called (SendStatus status_message done);;
    match __event_emitter__ with
    | None => mret ()
    | Some f => await_emitter f (StatusEvent (status_text status_message) done)
    end.

Definition get_send_citation (__event_emitter__ : EmitterType)
  : string -> string -> string -> gen unit :=
  λ url title content,
    called (SendCitation url title content);;
    match __event_emitter__ with
    | None => mret ()
    | Some f => await_emitter f (SourceEvent [content] url false title)
    end.

(** ** The events of [graph.astream_events] *)

(** [event["data"]]: the [content] of its ["chunk"] when it has one, and the
    [str] of its ["input"] and ["output"] when it has them. *)
Record event_data := {
  chunk : option string;
  input : option string;
  output : option string
}.

Record event := {
  ev_event : string;
  ev_name : string;
  ev_data : event_data
}.

(** What an async iterator gives its consumer: the items, and then either
    [StopAsyncIteration] ([None]) or an exception. *)
Record stream (A : Type) := {
  items : list A;
  failure : option exception
}.
Arguments items {A} s.
Arguments failure {A} s.

(** [async for x in s: st = body st x]. *)
Definition async_for {A S} (body : S -> A -> gen S) (st : S) (s : stream A)
  : gen S :=
  st' ← for_each body st (items s);
  match failure s with
  | Some e => raise e
  | None => mret st'
  end.

(** [f"{data.get(key)}"]: a missing key formats as [None]. *)
Definition py_str (o : option string) : string := default "None" o.

(** The string ["\n"]. *)
Definition newline : string := String "010"%char EmptyString.

(** ** The tools path of [Pipe.pipe] *)

Record loop_state := {
  num_tool_calls : nat;
  started_tools : gset string
}.

Definition initial_state : loop_state :=
  {| num_tool_calls := 0; started_tools := ∅ |}.

Definition citation_url (n : nat) : string := "Tool call " +:+ pretty n.

Definition citation_content (name : string) (data : event_data) : string :=
  "Tool '" +:+ name +:+ "' with inputs " +:+ py_str (input data)
    +:+ " returned " +:+ py_str (output data).

Section ToolsPath.
Variable __event_emitter__ : EmitterType.

Let send_status := get_send_status __event_emitter__.
Let send_citation := get_send_citation __event_emitter__.

(** The body of [async for event in graph.astream_events(...)]. *)
Definition loop_body (st : loop_state) (event : event) : gen loop_state :=
  let kind := ev_event event in
  let data := ev_data event in
  if decide (kind = "on_chat_model_stream") then
    match chunk data with
    | Some content =>
        if decide (content = EmptyString) then mret st
        else yield content;; mret st
    | None => mret st
    end
  else if decide (kind = "on_tool_start") then
    yield newline;;
    let name := ev_name event in
    send_status (Running name) false;;
    mret {| num_tool_calls := num_tool_calls st;
            started_tools := {[name]} ∪ started_tools st |}
  else if decide (kind = "on_tool_end") then
    let num_tool_calls' := S (num_tool_calls st) in
    let name := ev_name event in
    send_status (ToolReturned name (py_str (output data))) true;;
    send_citation (citation_url num_tool_calls') name
      (citation_content name data);;
    if decide (name ∈ started_tools st) then
      mret {| num_tool_calls := num_tool_calls';
              started_tools := started_tools st ∖ {[name]} |}
    else raise (KeyError name)
  else mret st.

(** [for name in started_tools: await send_status(..., True)]. Python walks
    the set in the order of its hash table, the model in the order of
    [elements]; no property below depends on the order. *)
Definition reconcile (st : loop_state) : gen unit :=
  for_each (λ _ name, send_status (ToolFailed name) true) ()
    (elements (started_tools st)).

(** Lines 221 to 249, on the stream [graph.astream_events] returns. *)
Definition pipe_tools (events : stream event) : gen unit :=
  st ← async_for loop_body initial_state events;
  reconcile st.
End ToolsPath.

(** ** [extract_event_info] *)

(** [request_info.get(key)]. *)
Definition dict_get (d : gmap string pyobj) (key : string) : pyobj :=
  default PyNone (d !! key).

(** The [for cell in event_emitter.__closure__] loop. *)
Fixpoint first_request_info (cells : list cell) : pyobj * pyobj :=
  match cells with
  | [] => (PyNone, PyNone)
  | CellDict request_info :: _ =>
      (dict_get request_info "chat_id", dict_get request_info "message_id")
  | CellOther _ :: cells' => first_request_info cells'
  end.

Definition extract_event_info (event_emitter : EmitterType)
  : pyobj * pyobj :=
  match event_emitter with
  | None => (PyNone, PyNone)
  | Some f =>
      match closure f with
      | None | Some [] => (PyNone, PyNone)
      | Some cells => first_request_info cells
      end
  end.

(** ** [Pipe.setup] *)

Record Valves := {
  OPENAI_BASE_URL : string;
  OPENAI_API_KEY : string;
  OLLAMA_URL : string;
  LANGFUSE_SECRET_KEY : string;
  LANGFUSE_PUBLIC_KEY : string;
  LANGFUSE_URL : string;
  MODEL_PREFIX : string;
  ENABLED_MODELS : string
}.

Record openai_kwargs_t := { openai_base_url : string; api_key : string }.
Record ollama_kwargs_t := { ollama_base_url : string }.
Record langfuse_kwargs_t := {
  secret_key : string;
  public_key : string;
  host : string
}.

(** The attributes [setup] assigns to [self]. *)
Record setup_t := {
  openai_kwargs : option openai_kwargs_t;
  ollama_kwargs : option ollama_kwargs_t;
  langfuse_kwargs : option langfuse_kwargs_t
}.

(** Truth value of a Python string. *)
Definition truthy (s : string) : bool := bool_decide (s ≠ EmptyString).

Definition setup (v : Valves) : completion setup_t :=
  let openai :=
    if truthy (OPENAI_API_KEY v) && truthy (OPENAI_BASE_URL v)
    then Some {| openai_base_url := OPENAI_BASE_URL v;
                 api_key := OPENAI_API_KEY v |}
    else None in
  let ollama :=
    if truthy (OLLAMA_URL v)
    then Some {| ollama_base_url := OLLAMA_URL v |}
    else None in
  if negb (bool_decide (is_Some openai) || bool_decide (is_Some ollama))
  then Raised (ValueError "No API keys provided")
  else
    Normal
      {| openai_kwargs := openai;
         ollama_kwargs := ollama;
         langfuse_kwargs :=
           if truthy (LANGFUSE_SECRET_KEY v) && truthy (LANGFUSE_PUBLIC_KEY v)
              && truthy (LANGFUSE_URL v)
           then Some {| secret_key := LANGFUSE_SECRET_KEY v;
                        public_key := LANGFUSE_PUBLIC_KEY v;
                        host := LANGFUSE_URL v |}
           else None |}.

(** ** [Pipe.pipe] *)

(** [self]: the valves and the [model_sources] that [pipes] filled in. *)
Record Pipe := {
  valves : Valves;
  model_sources : gmap string string
}.

Record message := { role : string; content : string }.

Record body_t := {
  model : string;
  messages : list message
}.

Inductive chat_model :=
| ChatOpenAI (model : string) (kwargs : openai_kwargs_t)
| ChatOllama (model : string) (kwargs : ollama_kwargs_t).

Record CallbackHandler := {
  handler_kwargs : langfuse_kwargs_t;
  user_id : option pyobj
}.

(** The [config] dict: its ["callbacks"], and its ["run_id"] when it has
    one. *)
Record config_t := {
  callbacks : list CallbackHandler;
  run_id : option pyobj
}.

(** [".".join(s.split(".")[1:])]: what follows the first dot, nothing when
    there is no dot. *)
Fixpoint after_first_dot (s : string) : string :=
  match s with
  | EmptyString => EmptyString
  | String c s' => if decide (c = "."%char) then s' else after_first_dot s'
  end.

(** Running a computation that has no effect on the trace. *)
Definition lift {A} (c : completion A) : gen A := λ tr, (tr, c).

(** [d[key]]. *)
Definition subscript {V} (d : gmap string V) (key : string) : gen V :=
  match d !! key with
  | Some v => mret v
  | None => raise (KeyError key)
  end.

Section Turn.
(** A tool's coroutine and its pydantic model are opaque here. *)
Context {coroutine_t args_schema_t : Type}.

(** One value of the [__tools__] dict. *)
Record tool_t := {
  callable : coroutine_t;
  pydantic_model : args_schema_t;
  spec_description : string
}.

Record StructuredTool := {
  tool_name : string;
  coroutine : coroutine_t;
  args_schema : args_schema_t;
  description : string
}.

(** The graph [create_react_agent] builds. *)
Record graph_t := create_react_agent {
  graph_model : chat_model;
  graph_tools : list StructuredTool
}.

(** The language-model libraries: [model.invoke(...).content], the
    [content] of the chunks of [model.astream(...)], and
    [graph.astream_events(inputs, version="v2", config=...)]. *)
Variable invoke : chat_model -> list message -> config_t -> completion string.
Variable astream : chat_model -> list message -> config_t -> stream string.
Variable astream_events :
  graph_t -> list message -> config_t -> stream event.

Definition pipe (self : Pipe) (body : body_t)
    (__user__ : option (gmap string pyobj)) (__task__ : option string)
    (__tools__ : option (list (string * tool_t)))
    (__event_emitter__ : EmitterType) : gen unit :=
  let '(message_id, _) := extract_event_info __event_emitter__ in
  if decide (__task__ = Some "function_calling") then mret ()
  else
    self_ ← lift (setup (valves self));
    let model_id := after_first_dot (model body) in
    source ← subscript (model_sources self) model_id;
    model ←
      (if decide (source = "openai") then
         match openai_kwargs self_ with
         | Some kwargs => mret (ChatOpenAI model_id kwargs)
         | None => raise (AssertionError "OpenAI API")
         end
       else
         match ollama_kwargs self_ with
         | Some kwargs => mret (ChatOllama model_id kwargs)
         | None => raise (AssertionError "Ollama API")
         end);
    callbacks ←
      match langfuse_kwargs self_ with
      | Some lf =>
          match __user__ with
          | Some user =>
              if decide (user = ∅) then
                mret [ {| handler_kwargs := lf; user_id := None |} ]
              else
                id ← subscript user "id";
                mret [ {| handler_kwargs := lf; user_id := Some id |} ]
          | None => mret [ {| handler_kwargs := lf; user_id := None |} ]
          end
      | None => mret []
      end;
    let config := {| callbacks := callbacks; run_id := None |} in
    let config_run_id :=
      {| callbacks := callbacks; run_id := Some message_id |} in
    if decide (__task__ = Some "title_generation") then
      content ← lift (invoke model (messages body) config);
      yield content
    else
      match __tools__ with
      | None | Some [] =>
          async_for (λ _ content, yield content) ()
            (astream model (messages body) config_run_id)
      | Some tool_items =>
          let tools :=
            (λ '(key, value),
               {| tool_name := key;
                  coroutine := callable value;
                  args_schema := pydantic_model value;
                  description := spec_description value |})
              <$> tool_items in
          let graph := create_react_agent model tools in
          pipe_tools __event_emitter__
            (astream_events graph (messages body) config_run_id)
      end.

(** Driving the generator of a turn from its start to its end. *)
Definition run (g : gen unit) : trace * completion unit := g [].
End Turn.

(** ** Events and checks used in the statements *)

Definition mk_event (kind name : string) (d : event_data) : event :=
  {| ev_event := kind; ev_name := name; ev_data := d |}.

Definition no_data : event_data :=
  {| chunk := None; input := None; output := None |}.

Definition tool_start (name : string) : event :=
  mk_event "on_tool_start" name no_data.

Definition tool_end (name : string) (inp out : string) : event :=
  mk_event "on_tool_end" name
    {| chunk := None; input := Some inp; output := Some out |}.

Definition text_delta (content : string) : event :=
  mk_event "on_chat_model_stream" "ChatOpenAI"
    {| chunk := Some content; input := None; output := None |}.

Definition ended (events : list event) : stream event :=
  {| items := events; failure := None |}.

(** The dict a notifier call hands to the emitter. *)
Definition host_event_of (c : notifier_call) : host_event :=
  match c with
  | SendStatus status_message done =>
      StatusEvent (status_text status_message) done
  | SendCitation url title content => SourceEvent [content] url false title
  end.

(** What awaiting the [i]-th notifier call of a turn does: [None] when it
    returns, which it always does without an emitter, [Some e] when the
    emitter raises [e]. *)
Definition await_outcome (em : EmitterType) (i : nat) (ev : host_event)
  : option exception :=
  match em with
  | None => None
  | Some f => emit f i ev
  end.

(** What the loop sends for an [on_tool_start] and an [on_tool_end] event. *)
Definition running_status (e : event) : notifier_call :=
  SendStatus (Running (ev_name e)) false.

Definition returned_status (e : event) : notifier_call :=
  SendStatus (ToolReturned (ev_name e) (py_str (output (ev_data e)))) true.

Definition tool_call_citation (k : nat) (e : event) : notifier_call :=
  SendCitation ("Tool call " +:+ pretty k) (ev_name e)
    (citation_content (ev_name e) (ev_data e)).

Definition failed_status (name : string) : notifier_call :=
  SendStatus (ToolFailed name) true.

(** The state after an [on_tool_start] and after an [on_tool_end]. *)
Definition state_started (st : loop_state) (e : event) : loop_state :=
  {| num_tool_calls := num_tool_calls st;
     started_tools := {[ev_name e]} ∪ started_tools st |}.

Definition state_ended (st : loop_state) (e : event) : loop_state :=
  {| num_tool_calls := S (num_tool_calls st);
     started_tools := started_tools st ∖ {[ev_name e]} |}.

(** The text of an event that is a text delta with content. *)
Definition delta_content (e : event) : option string :=
  if decide (ev_event e = "on_chat_model_stream") then
    match chunk (ev_data e) with
    | Some content => if decide (content = EmptyString) then None else Some content
    | None => None
    end
  else None.

(** The fragments the output owes to one event: the content of a text
    delta, the separator of a tool start, nothing for any other event. *)
Definition fragments_of (e : event) : list string :=
  match delta_content e with
  | Some content => [content]
  | None => if decide (ev_event e = "on_tool_start") then [newline] else []
  end.

Definition expected_output (events : list event) : list string :=
  flat_map fragments_of events.

(** The citations among the notifier calls of a trace. *)
Definition is_citation (c : notifier_call) : bool :=
  match c with
  | SendCitation _ _ _ => true
  | SendStatus _ _ => false
  end.

Definition citations (tr : trace) : list notifier_call :=
  filter (λ c, is_citation c = true) (notifier_calls tr).

(** The [on_tool_end] events of a stream, in its order. *)
Definition tool_ends (events : list event) : list event :=
  filter (λ e, ev_event e = "on_tool_end") events.

(** The citations owed to a stream: the [k]-th tool end, counting from 1
    over all tools, is cited as ["Tool call k"]. *)
Definition expected_citations (events : list event) : list notifier_call :=
  imap (λ i e, tool_call_citation (S i) e) (tool_ends events).

(** The tool a status is about. *)
Definition status_name (s : status) : string :=
  match s with
  | Running name | ToolReturned name _ | ToolFailed name => name
  end.

(** A terminal status for the tool [N]: a status call about [N] with
    [done=True]. *)
Definition is_terminal_for (N : string) (c : notifier_call) : bool :=
  match c with
  | SendStatus s done => done && bool_decide (status_name s = N)
  | SendCitation _ _ _ => false
  end.

Definition terminal_statuses (N : string) (tr : trace) : list notifier_call :=
  filter (λ c, is_terminal_for N c = true) (notifier_calls tr).

(** The [on_tool_start] events for the tool [N]. *)
Definition starts_of (N : string) (events : list event) : list event :=
  filter (λ e, ev_event e = "on_tool_start" ∧ ev_name e = N) events.

(** The engine's side of the contract for the tool [N]: no [on_tool_start]
    for [N] while [N] is active, where [active] tells whether [N] is started
    and not ended so far. *)
Fixpoint no_restart (N : string) (active : bool) (events : list event)
  : bool :=
  match events with
  | [] => true
  | e :: events' =>
      if decide (ev_event e = "on_tool_start" ∧ ev_name e = N) then
        negb active && no_restart N true events'
      else if decide (ev_event e = "on_tool_end" ∧ ev_name e = N) then
        no_restart N false events'
      else no_restart N active events'
  end.

(** 1 when [N] is in the set, 0 when it is not. *)
Definition pending (N : string) (active : gset string) : nat :=
  if decide (N ∈ active) then 1 else 0.

(** No status about a running tool carries [done=True]. *)
Definition running_is_not_done (c : notifier_call) : Prop :=
  match c with
  | SendStatus (Running _) true => False
  | _ => True
  end.

(** Where a notifier call of the loop comes from: the status of a tool
    start, or the status or the citation of a tool end, of one of the
    events. *)
Definition sent_for (events : list event) (eff : effect) : Prop :=
  match eff with
  | Yield _ => True
  | Notify c =>
      ∃ e, e ∈ events ∧
        ((ev_event e = "on_tool_start" ∧ c = running_status e) ∨
         (ev_event e = "on_tool_end" ∧
          (c = returned_status e ∨ ∃ k, c = tool_call_citation k e)))
  end.

(** Every notifier call of the trace returned, the first of them being the
    [i]-th call of the turn. *)
Fixpoint completed_from (em : EmitterType) (i : nat) (tr : trace) : Prop :=
  match tr with
  | [] => True
  | Yield _ :: tr' => completed_from em i tr'
  | Notify c :: tr' =>
      await_outcome em i (host_event_of c) = None
      ∧ completed_from em (S i) tr'
  end.

Definition completed (em : EmitterType) (tr : trace) : Prop :=
  completed_from em 0 tr.

(** A result of which either every notifier call returned, or the last
    effect is a notifier call that raised and the exception is the
    result. *)
Definition completed_or_aborted {A} (em : EmitterType)
    (r : trace * completion A) : Prop :=
  completed em (fst r) ∨
  ∃ tr c x,
    fst r = tr ++ [Notify c] ∧ completed em tr ∧
    await_outcome em (length (notifier_calls tr)) (host_event_of c) = Some x ∧
    snd r = Raised x.

(** A host whose connection is gone: every call of its emitter raises. *)
Definition closed_sink : emitter :=
  {| closure := None;
     emit := λ _ _, Some (HostError "connection closed") |}.

(** The first cell of a closure that holds a dict. *)
Definition first_dict_cell (cells : list cell) : option (gmap string pyobj) :=
  head (omap (λ c, match c with
                   | CellDict d => Some d
                   | CellOther _ => None
                   end) cells).

(** The request information an emitter carries: the dict of the first
    cell of its closure that holds one, if it has a closure. *)
Definition request_info_of (em : option emitter)
  : option (gmap string pyobj) :=
  match em with
  | Some f =>
      match closure f with
      | Some cells => first_dict_cell cells
      | None => None
      end
  | None => None
  end.

(** An emitter as the host builds it: a closure over the user and the
    request information. *)
Definition host_emitter : emitter :=
  {| closure :=
       Some [CellOther (PyStr "user-7");
             CellDict {[ "chat_id" := PyStr "chat-42";
                         "message_id" := PyStr "msg-3" ]}];
     emit := λ _ _, None |}.

Definition openai_valves : Valves :=
  {| OPENAI_BASE_URL := "https://api.openai.com/v1";
     OPENAI_API_KEY := "sk-test";
     OLLAMA_URL := EmptyString;
     LANGFUSE_SECRET_KEY := EmptyString;
     LANGFUSE_PUBLIC_KEY := EmptyString;
     LANGFUSE_URL := EmptyString;
     MODEL_PREFIX := "ReAct";
     ENABLED_MODELS := "gpt-4o,gpt-4o-mini,gpt-4" |}.

Definition openai_pipe : Pipe :=
  {| valves := openai_valves; model_sources := {[ "gpt-4o" := "openai" ]} |}.

Definition question : body_t :=
  {| model := "react.gpt-4o";
     messages := [ {| role := "user"; content := "2+2?" |} ] |}.

(** A turn that is a streaming call of a backend tagged with [run_id]: the
    direct stream of [model.astream], or the tools path on the events of
    [graph.astream_events]. *)
Definition streams_with_run_id {coroutine_t args_schema_t : Type}
    (astream : chat_model -> list message -> config_t -> stream string)
    (astream_events :
       @graph_t coroutine_t args_schema_t -> list message -> config_t ->
       stream event)
    (em : EmitterType) (inputs : list message) (run_id : pyobj)
    (turn : gen unit) : Prop :=
  ∃ model callbacks,
    turn = async_for (λ _ content, yield content) ()
             (astream model inputs
                {| callbacks := callbacks; run_id := Some run_id |})
    ∨ ∃ structured_tools,
        turn = pipe_tools em
                 (astream_events (create_react_agent model structured_tools)
                    inputs
                    {| callbacks := callbacks; run_id := Some run_id |}).

(** Backends that answer at once, and a tool. *)
Definition echo_invoke (_ : chat_model) (_ : list message) (_ : config_t)
  : completion string := Normal "Sum".

Definition echo_astream (_ : chat_model) (_ : list message) (_ : config_t)
  : stream string := {| items := ["4"]; failure := None |}.

Definition echo_astream_events (_ : @graph_t unit unit) (_ : list message)
    (_ : config_t) : stream event := ended [text_delta "4"].

Definition calculator_tool : string * @tool_t unit unit :=
  ("calculator",
   {| callable := (); pydantic_model := (); spec_description := "Adds." |}).

(** One iteration of the loop as a step relation: from the state [st] and
    the effects [tr] so far, the event [e] leads to the effects and the
    completion on the right. *)
Inductive step (em : EmitterType) (st : loop_state) (e : event) (tr : trace)
  : trace * completion loop_state -> Prop :=
| step_delta content :
    delta_content e = Some content ->
    step em st e tr (tr ++ [Yield content], Normal st)
| step_skip :
    delta_content e = None ->
    ev_event e ≠ "on_tool_start" ->
    ev_event e ≠ "on_tool_end" ->
    step em st e tr (tr, Normal st)
| step_start :
    ev_event e = "on_tool_start" ->
    await_outcome em (length (notifier_calls tr))
      (host_event_of (running_status e)) = None ->
    step em st e tr
      (tr ++ [Yield newline; Notify (running_status e)],
       Normal (state_started st e))
| step_start_raised x :
    ev_event e = "on_tool_start" ->
    await_outcome em (length (notifier_calls tr))
      (host_event_of (running_status e)) = Some x ->
    step em st e tr
      (tr ++ [Yield newline; Notify (running_status e)], Raised x)
| step_end :
    ev_event e = "on_tool_end" ->
    await_outcome em (length (notifier_calls tr))
      (host_event_of (returned_status e)) = None ->
    await_outcome em (S (length (notifier_calls tr)))
      (host_event_of (tool_call_citation (S (num_tool_calls st)) e)) = None ->
    ev_name e ∈ started_tools st ->
    step em st e tr
      (tr ++ [Notify (returned_status e);
              Notify (tool_call_citation (S (num_tool_calls st)) e)],
       Normal (state_ended st e))
| step_end_key_error :
    ev_event e = "on_tool_end" ->
    await_outcome em (length (notifier_calls tr))
      (host_event_of (returned_status e)) = None ->
    await_outcome em (S (length (notifier_calls tr)))
      (host_event_of (tool_call_citation (S (num_tool_calls st)) e)) = None ->
    ev_name e ∉ started_tools st ->
    step em st e tr
      (tr ++ [Notify (returned_status e);
              Notify (tool_call_citation (S (num_tool_calls st)) e)],
       Raised (KeyError (ev_name e)))
| step_end_status_raised x :
    ev_event e = "on_tool_end" ->
    await_outcome em (length (notifier_calls tr))
      (host_event_of (returned_status e)) = Some x ->
    step em st e tr (tr ++ [Notify (returned_status e)], Raised x)
| step_end_citation_raised x :
    ev_event e = "on_tool_end" ->
    await_outcome em (length (notifier_calls tr))
      (host_event_of (returned_status e)) = None ->
    await_outcome em (S (length (notifier_calls tr)))
      (host_event_of (tool_call_citation (S (num_tool_calls st)) e)) = Some x ->
    step em st e tr
      (tr ++ [Notify (returned_status e);
              Notify (tool_call_citation (S (num_tool_calls st)) e)],
       Raised x).

(** ** [Pipe.__init__] and [Pipe.pipes] *)

(** The defaults of the fields of [Valves]. *)
Definition default_valves : Valves :=
  {| OPENAI_BASE_URL := "https://api.openai.com/v1";
     OPENAI_API_KEY := EmptyString;
     OLLAMA_URL := EmptyString;
     LANGFUSE_SECRET_KEY := EmptyString;
     LANGFUSE_PUBLIC_KEY := EmptyString;
     LANGFUSE_URL := EmptyString;
     MODEL_PREFIX := "ReAct";
     ENABLED_MODELS := "gpt-4o,gpt-4o-mini,gpt-4" |}.

(** [os.getenv(k, d)] on the environment [environ]. *)
Definition getenv (environ : gmap string string) (k d : string) : string :=
  default d (environ !! k).

(** The valves [__init__] builds: each field from the environment variable
    of its name, or its default. *)
Definition __init__ (environ : gmap string string) : Valves :=
  {| OPENAI_BASE_URL :=
       getenv environ "OPENAI_BASE_URL" (OPENAI_BASE_URL default_valves);
     OPENAI_API_KEY :=
       getenv environ "OPENAI_API_KEY" (OPENAI_API_KEY default_valves);
     OLLAMA_URL := getenv environ "OLLAMA_URL" (OLLAMA_URL default_valves);
     LANGFUSE_SECRET_KEY :=
       getenv environ "LANGFUSE_SECRET_KEY"
         (LANGFUSE_SECRET_KEY default_valves);
     LANGFUSE_PUBLIC_KEY :=
       getenv environ "LANGFUSE_PUBLIC_KEY"
         (LANGFUSE_PUBLIC_KEY default_valves);
     LANGFUSE_URL :=
       getenv environ "LANGFUSE_URL" (LANGFUSE_URL default_valves);
     MODEL_PREFIX :=
       getenv environ "MODEL_PREFIX" (MODEL_PREFIX default_valves);
     ENABLED_MODELS :=
       getenv environ "ENABLED_MODELS" (ENABLED_MODELS default_valves) |}.

(** [s.split(sep)] for a separator of one character: the pieces between
    the separators, one more than there are separators. *)
Fixpoint split_on (sep : ascii) (s : string) : list string :=
  match s with
  | EmptyString => [EmptyString]
  | String c s' =>
      if decide (c = sep) then EmptyString :: split_on sep s'
      else match split_on sep s' with
           | piece :: pieces => String c piece :: pieces
           | [] => [String c EmptyString]
           end
  end.

(** [sep.join(pieces)]. *)
Fixpoint join (sep : string) (pieces : list string) : string :=
  match pieces with
  | [] => EmptyString
  | [piece] => piece
  | piece :: pieces' => piece +:+ sep +:+ join sep pieces'
  end.

(** The character [c] occurs in [s]. *)
Fixpoint occurs (c : ascii) (s : string) : bool :=
  match s with
  | EmptyString => false
  | String c' s' => bool_decide (c' = c) || occurs c s'
  end.

(** [str(e)] of the exception [e]. *)
Definition exception_str (e : exception) : string :=
  match e with
  | KeyError key => "'" +:+ key +:+ "'"
  | ValueError msg | AssertionError msg | HostError msg => msg
  end.

(** One dict of the list [pipes] returns; the id of a model that Ollama
    lists without name is [None]. *)
Record model_entry := {
  entry_id : option string;
  entry_name : string
}.

(** One element of [client.list()["models"]]: its ["name"] and its
    ["model"], when it has them. *)
Record ollama_model := {
  om_name : option string;
  om_model : option string
}.

(** [a or b] on values that are [None] or a string. *)
Definition py_or (a b : option string) : option string :=
  match a with
  | Some s => if truthy s then a else b
  | None => b
  end.

Section Pipes.
(** The builtin [str.strip], and the two clients: the ids of
    [openai.models.list().data] for the client built from the kwargs, and
    the models of [ollama.Client(host=url).list()]. *)
Variable strip : string -> string.
Variable openai_models_list : openai_kwargs_t -> completion (list string).
Variable ollama_list : string -> completion (list ollama_model).

(** The models of the first [try] block: nothing when the client raises. *)
Definition oai_models_of (v : Valves) (self_ : setup_t) : list string :=
  match openai_kwargs self_ with
  | Some kwargs =>
      match openai_models_list kwargs with
      | Normal ids =>
          let enabled_models :=
            strip <$> split_on ","%char (ENABLED_MODELS v) in
          filter (λ m, m ∈ enabled_models) ids
      | Raised _ => []
      end
  | None => []
  end.

(** The models of the second [try] block. *)
Definition ollama_models_of (v : Valves) (self_ : setup_t)
  : list (option string) :=
  match ollama_kwargs self_ with
  | Some _ =>
      match ollama_list (OLLAMA_URL v) with
      | Normal ms => (λ m, py_or (om_name m) (om_model m)) <$> ms
      | Raised _ => []
      end
  | None => []
  end.

(** [pipes]: the list it returns and [self] after it. [model_sources] keeps
    the string keys of the dict: the key [None] of an Ollama model without
    name is never looked up, the model id of a turn being a string. The
    entries of Ollama are merged last and win. *)
Definition pipes (self : Pipe) : list model_entry * Pipe :=
  let v := valves self in
  match setup v with
  | Raised e =>
      ([ {| entry_id := Some "error";
            entry_name := "Error: " +:+ exception_str e |} ], self)
  | Normal self_ =>
      let oai_models := oai_models_of v self_ in
      let ollama_models := ollama_models_of v self_ in
      let models := (Some <$> oai_models) ++ ollama_models in
      let sources : gmap string string :=
        list_to_map ((λ m, (m, "ollama")) <$> omap id ollama_models)
        ∪ list_to_map ((λ m, (m, "openai")) <$> oai_models) in
      ((λ m, {| entry_id := m;
                entry_name := MODEL_PREFIX v +:+ "/" +:+ py_str m |})
         <$> models,
       {| valves := v; model_sources := sources |})
  end.
End Pipes.

(** ** Checks on streams and examples used in the statements below *)

(** Every [on_tool_end] of the stream is for a tool that is started and not
    ended, where [active] holds the tools started and not ended so far. *)
Fixpoint well_paired (active : gset string) (events : list event) : bool :=
  match events with
  | [] => true
  | e :: events' =>
      if decide (ev_event e = "on_tool_start") then
        well_paired ({[ev_name e]} ∪ active) events'
      else if decide (ev_event e = "on_tool_end") then
        bool_decide (ev_name e ∈ active)
        && well_paired (active ∖ {[ev_name e]}) events'
      else well_paired active events'
  end.

(** Whether the tool [N] is started and not ended after the events, given
    whether it is before them. *)
Fixpoint still_active (N : string) (active : bool) (events : list event)
  : bool :=
  match events with
  | [] => active
  | e :: events' =>
      if decide (ev_event e = "on_tool_start" ∧ ev_name e = N) then
        still_active N true events'
      else if decide (ev_event e = "on_tool_end" ∧ ev_name e = N) then
        still_active N false events'
      else still_active N active events'
  end.

(** An emitter, if any, that never raises. *)
Definition quiet (em : EmitterType) : Prop :=
  ∀ i ev, await_outcome em i ev = None.

(** The event is neither an [on_tool_start] nor an [on_tool_end]. *)
Definition no_tool_event (e : event) : Prop :=
  ev_event e ≠ "on_tool_start" ∧ ev_event e ≠ "on_tool_end".

(** What a stream of strings yields when each item is yielded. *)
Definition passthrough (s : stream string) : trace * completion unit :=
  (Yield <$> items s,
   match failure s with
   | Some x => Raised x
   | None => Normal ()
   end).

(** The user has an ["id"], or is absent or empty. *)
Definition user_has_id (user : option (gmap string pyobj)) : Prop :=
  match user with
  | Some u => u = ∅ ∨ is_Some (u !! "id")
  | None => True
  end.

(** Clients for the examples: OpenAI lists three models, Ollama one with a
    name and one with only a model tag. *)
Definition list_openai (_ : openai_kwargs_t) : completion (list string) :=
  Normal ["gpt-4o"; "gpt-3.5-turbo"; "gpt-4"].

Definition list_ollama (_ : string) : completion (list ollama_model) :=
  Normal [ {| om_name := Some "llama3"; om_model := None |};
           {| om_name := None; om_model := Some "gpt-4" |} ].

Definition failing_openai (_ : openai_kwargs_t) : completion (list string) :=
  Raised (HostError "401").

Definition failing_ollama (_ : string) : completion (list ollama_model) :=
  Raised (HostError "connection refused").

(** A stand-in for [str.strip] in the examples, whose pieces have no blank
    but spaces in front. *)
Fixpoint lstrip_spaces (s : string) : string :=
  match s with
  | String " " s' => lstrip_spaces s'
  | _ => s
  end.

Definition both_valves : Valves :=
  {| OPENAI_BASE_URL := "https://api.openai.com/v1";
     OPENAI_API_KEY := "sk-test";
     OLLAMA_URL := "http://localhost:11434";
     LANGFUSE_SECRET_KEY := "sk-lf";
     LANGFUSE_PUBLIC_KEY := "pk-lf";
     LANGFUSE_URL := "https://cloud.langfuse.com";
     MODEL_PREFIX := "ReAct";
     ENABLED_MODELS := "gpt-4o, gpt-4" |}.

Definition both_setup : setup_t :=
  {| openai_kwargs :=
       Some {| openai_base_url := "https://api.openai.com/v1";
               api_key := "sk-test" |};
     ollama_kwargs := Some {| ollama_base_url := "http://localhost:11434" |};
     langfuse_kwargs :=
       Some {| secret_key := "sk-lf"; public_key := "pk-lf";
               host := "https://cloud.langfuse.com" |} |}.

Definition both_pipe : Pipe :=
  {| valves := both_valves; model_sources := ∅ |}.

(** A result that is the one without emitter, or an exception after some of
    its effects. *)
Definition same_or_cut_short {A} (r r0 : trace * completion A) : Prop :=
  r = r0 ∨ (fst r `prefix_of` fst r0 ∧ ∃ x, snd r = Raised x).

(** The [callbacks] of a turn whose user, if there is one, is empty or has
    an ["id"]: one handler with the Langfuse kwargs, and the user's id when
    there is one, when Langfuse is configured; none when it is not. *)
Definition callbacks_of (lf : option langfuse_kwargs_t)
    (user : option (gmap string pyobj)) : list CallbackHandler :=
  match lf with
  | Some lf => [ {| handler_kwargs := lf; user_id := user ≫= (.!! "id") |} ]
  | None => []
  end.

(** A computation that leaves the effects before it in place. *)
Definition extends {A} (m : gen A) : Prop :=
  ∀ tr, ∃ d, fst (m tr) = tr ++ d.

(** * Properties *)

(** ** The monad *)

Lemma bind_unfold {A B} (m : gen A) (k : A -> gen B) tr :
  (m ≫= k) tr =
  match m tr with
  | (tr', Normal a) => k a tr'
  | (tr', Raised e) => (tr', Raised e)
  end.
Proof. reflexivity. Qed.

Lemma for_each_app {A S} (body : S -> A -> gen S) xs ys st tr :
  for_each body st (xs ++ ys) tr =
  match for_each body st xs tr with
  | (tr', Normal st') => for_each body st' ys tr'
  | (tr', Raised e) => (tr', Raised e)
  end.
Proof.
  revert st tr. induction xs as [|x xs IH]; intros st tr; simpl.
  - reflexivity.
  - rewrite !bind_unfold. destruct (body st x tr) as [tr' [st'|e]].
    + apply IH.
    + reflexivity.
Qed.

Lemma notifier_calls_app tr1 tr2 :
  notifier_calls (tr1 ++ tr2) = notifier_calls tr1 ++ notifier_calls tr2.
Proof. apply omap_app. Qed.

Lemma yielded_app tr1 tr2 : yielded (tr1 ++ tr2) = yielded tr1 ++ yielded tr2.
Proof. apply omap_app. Qed.

(** ** The loop body takes a step *)

Lemma send_status_unfold em status_message done tr :
  get_send_status em status_message done tr =
  (tr ++ [Notify (SendStatus status_message done)],
   match await_outcome em (length (notifier_calls tr))
           (host_event_of (SendStatus status_message done)) with
   | None => Normal ()
   | Some e => Raised e
   end).
Proof.
  unfold get_send_status, called, await_emitter, await_outcome.
  rewrite bind_unfold. destruct em as [f|]; [|done]. f_equal.
  rewrite notifier_calls_app, length_app, Nat.add_1_r. done.
Qed.

Lemma send_citation_unfold em url title content tr :
  get_send_citation em url title content tr =
  (tr ++ [Notify (SendCitation url title content)],
   match await_outcome em (length (notifier_calls tr))
           (host_event_of (SendCitation url title content)) with
   | None => Normal ()
   | Some e => Raised e
   end).
Proof.
  unfold get_send_citation, called, await_emitter, await_outcome.
  rewrite bind_unfold. destruct em as [f|]; [|done]. f_equal.
  rewrite notifier_calls_app, length_app, Nat.add_1_r. done.
Qed.

Lemma loop_body_step em st e tr : step em st e tr (loop_body em st e tr).
Proof.
  unfold loop_body.
  destruct (decide (ev_event e = "on_chat_model_stream")) as [Hk|Hk].
  { destruct (chunk (ev_data e)) as [content|] eqn:Hc.
    - destruct (decide (content = EmptyString)) as [He|He].
      + apply step_skip; [|rewrite Hk; discriminate..].
        unfold delta_content. rewrite decide_True, Hc by done.
        by rewrite decide_True.
      + apply step_delta. unfold delta_content.
        rewrite decide_True, Hc by done. by rewrite decide_False.
    - apply step_skip; [|rewrite Hk; discriminate..].
      unfold delta_content. by rewrite decide_True, Hc. }
  assert (delta_content e = None) as Hd.
  { unfold delta_content. by rewrite decide_False. }
  destruct (decide (ev_event e = "on_tool_start")) as [Hs|Hs].
  { rewrite !bind_unfold. unfold yield. rewrite bind_unfold.
    rewrite send_status_unfold. fold (running_status e).
    pose proof (step_start em st e tr Hs) as Hok.
    pose proof (λ x, step_start_raised em st e tr x Hs) as Hraise.
    rewrite <- app_assoc. simpl app.
    assert (length (notifier_calls (tr ++ [Yield newline]))
            = length (notifier_calls tr)) as ->.
    { rewrite notifier_calls_app. simpl. by rewrite app_nil_r. }
    destruct (await_outcome em _ _) as [x|]; [by apply Hraise|by apply Hok]. }
  destruct (decide (ev_event e = "on_tool_end")) as [He|He].
  2: { by apply step_skip. }
  rewrite !bind_unfold, send_status_unfold. fold (returned_status e).
  destruct (await_outcome em (length (notifier_calls tr)) _) as [x|] eqn:H1.
  { by apply step_end_status_raised. }
  rewrite bind_unfold, send_citation_unfold, <- app_assoc. simpl app.
  change (SendCitation _ _ _)
    with (tool_call_citation (S (num_tool_calls st)) e).
  assert (length (notifier_calls (tr ++ [Notify (returned_status e)]))
          = S (length (notifier_calls tr))) as ->.
  { rewrite notifier_calls_app, length_app. simpl. lia. }
  destruct (await_outcome em (S _) _) as [x|] eqn:H2.
  { by apply step_end_citation_raised. }
  destruct (decide (ev_name e ∈ started_tools st)) as [Hin|Hin].
  - by apply step_end.
  - by apply step_end_key_error.
Qed.

(** The first iteration of a loop on [e :: evs], with the step it takes. *)
Ltac loop_step em st e tr H :=
  simpl for_each; rewrite bind_unfold;
  pose proof (loop_body_step em st e tr) as H.

(** ** Events of other kinds *)

(** C10: an event whose kind is none of [on_chat_model_stream],
    [on_tool_start] and [on_tool_end] is passed over: the loop body yields
    nothing, calls no notifier and returns the counter and the set of started
    tools as they were. *)
Theorem other_kinds_are_ignored em st e tr :
  ev_event e ≠ "on_chat_model_stream" ->
  ev_event e ≠ "on_tool_start" ->
  ev_event e ≠ "on_tool_end" ->
  loop_body em st e tr = (tr, Normal st).
Proof.
  intros H1 H2 H3. unfold loop_body.
  repeat case_decide; try contradiction. reflexivity.
Qed.

Lemma other_kinds_are_ignored_witness :
  loop_body None
    {| num_tool_calls := 2; started_tools := {["search"]} |}
    (mk_event "on_chain_start" "agent" no_data) [Yield "Hi"]
  = ([Yield "Hi"],
     Normal {| num_tool_calls := 2; started_tools := {["search"]} |}).
Proof.
  apply other_kinds_are_ignored; simpl; discriminate.
Defined.

(** ** Traces only grow *)

Lemma extends_ret {A} (a : A) : extends (mret a).
Proof. intros tr. exists []. simpl. by rewrite app_nil_r. Qed.

Lemma extends_raise {A} e : extends (@raise A e).
Proof. intros tr. exists []. simpl. by rewrite app_nil_r. Qed.

Lemma extends_yield s : extends (yield s).
Proof. intros tr. by exists [Yield s]. Qed.

Lemma extends_send_status em status_message done :
  extends (get_send_status em status_message done).
Proof.
  intros tr. rewrite send_status_unfold. by eexists.
Qed.

Lemma extends_send_citation em url title content :
  extends (get_send_citation em url title content).
Proof.
  intros tr. rewrite send_citation_unfold. by eexists.
Qed.

Lemma extends_bind {A B} (m : gen A) (k : A -> gen B) :
  extends m -> (∀ a, extends (k a)) -> extends (m ≫= k).
Proof.
  intros Hm Hk tr. rewrite bind_unfold.
  destruct (Hm tr) as [d Hd]. destruct (m tr) as [tr' [a|e]]; simpl in Hd.
  - destruct (Hk a tr') as [d' Hd']. exists (d ++ d').
    by rewrite Hd', Hd, app_assoc.
  - by exists d.
Qed.

Lemma extends_for_each {A S} (body : S -> A -> gen S) xs :
  (∀ st x, extends (body st x)) -> ∀ st, extends (for_each body st xs).
Proof.
  intros Hbody. induction xs as [|x xs IH]; intros st; simpl.
  - apply extends_ret.
  - apply extends_bind; auto.
Qed.

Create HintDb gen_extends.
#[local] Hint Resolve extends_ret extends_raise extends_yield
  extends_send_status extends_send_citation extends_bind extends_for_each
  : gen_extends.

Lemma extends_loop_body em st e : extends (loop_body em st e).
Proof.
  unfold loop_body.
  repeat first [case_decide | case_match]; auto 6 with gen_extends.
Qed.

Lemma extends_reconcile em st : extends (reconcile em st).
Proof.
  unfold reconcile. apply extends_for_each. intros _ name.
  apply extends_send_status.
Qed.

#[local] Hint Resolve extends_loop_body extends_reconcile : gen_extends.

(** The effects of [m] stay in front of those of what follows it. *)
Lemma bind_extends {A B} (m : gen A) (k : A -> gen B) tr :
  (∀ a, extends (k a)) ->
  ∃ rest, fst ((m ≫= k) tr) = fst (m tr) ++ rest.
Proof.
  intros Hk. rewrite bind_unfold. destruct (m tr) as [tr' [a|e]]; simpl.
  - apply Hk.
  - exists []. by rewrite app_nil_r.
Qed.

(** The trace of a turn starts with the trace of its event loop. *)
Lemma pipe_tools_extends_loop em s tr :
  ∃ rest,
    fst (pipe_tools em s tr)
    = fst (for_each (loop_body em) initial_state (items s) tr) ++ rest.
Proof.
  unfold pipe_tools, async_for.
  match goal with
  | |- ∃ rest, fst ((?m ≫= ?k) tr) = _ =>
      destruct (bind_extends m k tr) as [r1 ->];
      [intros; apply extends_reconcile|]
  end.
  match goal with
  | |- ∃ rest, fst ((?m ≫= ?k) tr) ++ _ = _ =>
      destruct (bind_extends m k tr) as [r2 ->]
  end.
  { intros st'. destruct (failure s); [apply extends_raise|apply extends_ret]. }
  exists (r2 ++ r1). by rewrite app_assoc.
Qed.

(** ** The function-calling probe *)

(** C7: when the task is the function-calling probe, the turn ends at once:
    no fragment is yielded and no notifier is called, whatever the body, the
    user, the tools, the emitter, the valves and the backends are. *)
Theorem function_calling_probe_is_silent
    {coroutine_t args_schema_t : Type}
    (invoke : chat_model -> list message -> config_t -> completion string)
    (astream : chat_model -> list message -> config_t -> stream string)
    (astream_events :
       @graph_t coroutine_t args_schema_t -> list message -> config_t ->
       stream event)
    self body user tools em :
  run (pipe invoke astream astream_events self body user
         (Some "function_calling") tools em) = ([], Normal ()).
Proof.
  unfold run, pipe. destruct (extract_event_info em) as [message_id ?].
  case_decide; [reflexivity|congruence].
Qed.

(** The two other paths of a turn, on the question ["2+2?"]. *)
Example title_generation_yields_once :
  run (pipe echo_invoke echo_astream echo_astream_events openai_pipe
         question None (Some "title_generation") (Some [calculator_tool])
         (Some host_emitter))
  = ([Yield "Sum"], Normal ()).
Proof. reflexivity. Qed.

Example no_tools_streams_the_deltas :
  run (pipe echo_invoke echo_astream echo_astream_events openai_pipe
         question None None None (Some host_emitter))
  = ([Yield "4"], Normal ()).
Proof. reflexivity. Qed.

(** ** The start of a tool *)

(** C6: when the loop reaches an [on_tool_start] event, the next two effects
    of the turn are the newline separator, yielded first, and then the call
    [send_status("Running tool {name}", False)]. *)
Theorem separator_before_running_status em pre e post fin tr st :
  ev_event e = "on_tool_start" ->
  for_each (loop_body em) initial_state pre [] = (tr, Normal st) ->
  ∃ rest,
    fst (pipe_tools em {| items := pre ++ e :: post; failure := fin |} [])
    = tr ++ Yield newline
         :: Notify (SendStatus (Running (ev_name e)) false) :: rest.
Proof.
  intros Hkind Hpre.
  destruct (pipe_tools_extends_loop em
    {| items := pre ++ e :: post; failure := fin |} []) as [r1 ->].
  simpl items. rewrite for_each_app, Hpre. simpl for_each.
  destruct (bind_extends (loop_body em st e)
    (λ st', for_each (loop_body em) st' post) tr) as [r2 ->].
  { intros st'. apply extends_for_each. intros. apply extends_loop_body. }
  exists (r2 ++ r1). unfold loop_body. rewrite Hkind.
  repeat (case_decide; try done).
  rewrite !bind_unfold. unfold yield. rewrite bind_unfold, send_status_unfold.
  destruct (await_outcome em _ _); simpl; by rewrite <- !app_assoc.
Qed.

Lemma separator_before_running_status_witness :
  ∃ rest,
    fst (pipe_tools None
           {| items := [text_delta "Let me check."] ++
                       tool_start "calculator" :: [tool_end "calculator" "{}" "4"];
              failure := None |} [])
    = [Yield "Let me check."] ++ Yield newline
        :: Notify (SendStatus (Running "calculator") false) :: rest.
Proof.
  apply (separator_before_running_status None [text_delta "Let me check."]
           (tool_start "calculator") [tool_end "calculator" "{}" "4"] None
           [Yield "Let me check."] initial_state); reflexivity.
Defined.

(** ** The end of a tool that is not started *)

Lemma delta_content_kind e content :
  delta_content e = Some content -> ev_event e = "on_chat_model_stream".
Proof. unfold delta_content. by case_decide. Qed.



(** A second [on_tool_end] for a tool that has ended is such an event. *)
Example second_tool_end_raises :
  pipe_tools None
    (ended [tool_start "search"; tool_end "search" "q" "hit";
            tool_end "search" "q" "hit"]) []
  = ([Yield newline; Notify (SendStatus (Running "search") false);
      Notify (SendStatus (ToolReturned "search" "hit") true);
      Notify (SendCitation "Tool call 1" "search"
                "Tool 'search' with inputs q returned hit");
      Notify (SendStatus (ToolReturned "search" "hit") true);
      Notify (SendCitation "Tool call 2" "search"
                "Tool 'search' with inputs q returned hit")],
     Raised (KeyError "search")).
Proof. reflexivity. Qed.

(** ** The shape of a turn *)

Lemma pipe_tools_unfold em s tr :
  pipe_tools em s tr =
  match for_each (loop_body em) initial_state (items s) tr with
  | (tr', Normal st) =>
      match failure s with
      | Some e => (tr', Raised e)
      | None => reconcile em st tr'
      end
  | (tr', Raised e) => (tr', Raised e)
  end.
Proof.
  unfold pipe_tools, async_for. rewrite !bind_unfold.
  destruct (for_each _ _ _ _) as [tr' [st|e]]; [|done].
  by destruct (failure s).
Qed.

(** The reconciliation sends a 'failed' status for the names of
    [started_tools] in turn, as long as the notifier returns. *)
Lemma reconcile_trace em st tr :
  ∃ names,
    names `prefix_of` elements (started_tools st) ∧
    fst (reconcile em st tr) = tr ++ (Notify ∘ failed_status <$> names) ∧
    (snd (reconcile em st tr) = Normal () ->
     names = elements (started_tools st)).
Proof.
  unfold reconcile. generalize (elements (started_tools st)) as l.
  intros l. revert tr. induction l as [|name l IH]; intros tr.
  - exists []. simpl. by rewrite app_nil_r.
  - simpl for_each. rewrite bind_unfold, send_status_unfold.
    fold (failed_status name).
    destruct (await_outcome em _ _) as [x|].
    + exists [name]. simpl. split_and!; [|done..].
      by apply prefix_cons, prefix_nil.
    + destruct (IH (tr ++ [Notify (failed_status name)]))
        as (names & Hpre & Htr & Hall).
      exists (name :: names). split_and!.
      * by apply prefix_cons.
      * rewrite Htr, <- app_assoc. done.
      * intros Hn. by rewrite Hall.
Qed.

(** When the stream raises instead of ending, the exception leaves the
    [async for] and the turn: the reconciliation after the loop does not
    run. *)
Lemma stream_failure_skips_reconciliation em events x tr st :
  for_each (loop_body em) initial_state events [] = (tr, Normal st) ->
  pipe_tools em {| items := events; failure := Some x |} [] = (tr, Raised x).
Proof. intros Hloop. rewrite pipe_tools_unfold. simpl. by rewrite Hloop. Qed.

Example engine_failure_after_tool_start :
  pipe_tools None
    {| items := [tool_start "search"];
       failure := Some (ValueError "model call failed") |} []
  = ([Yield newline; Notify (SendStatus (Running "search") false)],
     Raised (ValueError "model call failed")).
Proof. reflexivity. Qed.

(** ** The order of the text *)

Lemma step_yielded em st e tr tr' st' :
  step em st e tr (tr', Normal st') ->
  yielded tr' = yielded tr ++ fragments_of e.
Proof.
  unfold fragments_of. inversion 1 as
    [c Hd| Hd Hs He | Hs _ | | He _ _ _ | | |]; subst;
    rewrite ?yielded_app; simpl.
  - by rewrite Hd.
  - rewrite Hd, decide_False by done. by rewrite app_nil_r.
  - destruct (delta_content e) as [c|] eqn:Hd.
    { apply delta_content_kind in Hd. congruence. }
    by rewrite decide_True.
  - destruct (delta_content e) as [c|] eqn:Hd.
    { apply delta_content_kind in Hd. congruence. }
    rewrite decide_False by congruence. done.
Qed.

Lemma loop_yielded em evs st tr tr' st' :
  for_each (loop_body em) st evs tr = (tr', Normal st') ->
  yielded tr' = yielded tr ++ expected_output evs.
Proof.
  revert st tr. induction evs as [|e evs IH]; intros st tr; simpl.
  - unfold mret, gen_mret, gen_ret. intros [= <- <-]. by rewrite app_nil_r.
  - rewrite bind_unfold. pose proof (loop_body_step em st e tr) as Hstep.
    destruct (loop_body em st e tr) as [tr1 [st1|x]]; [|done].
    intros Hrest. apply IH in Hrest. apply step_yielded in Hstep.
    by rewrite Hrest, Hstep, <- app_assoc.
Qed.

(** Whatever ends a turn, what it has yielded is the beginning of the
    output owed to its stream. *)
Lemma step_yielded_prefix em st e tr tr' c :
  step em st e tr (tr', c) ->
  ∃ frs, yielded tr' = yielded tr ++ frs ∧ frs `prefix_of` fragments_of e
         ∧ (∀ st', c = Normal st' -> frs = fragments_of e).
Proof.
  intros Hstep. destruct c as [st'|x].
  { exists (fragments_of e). split_and!; [|done..].
    by eapply step_yielded. }
  unfold fragments_of.
  inversion Hstep as [| | |x' Hs _| |He _ _ _|x' He _|x' He _ _]; subst;
    rewrite yielded_app; simpl.
  - destruct (delta_content e) as [c|] eqn:Hd.
    { apply delta_content_kind in Hd. congruence. }
    rewrite decide_True by done. by exists [newline].
  - exists []. split_and!; [done|apply prefix_nil|done].
  - exists []. split_and!; [done|apply prefix_nil|done].
  - exists []. split_and!; [done|apply prefix_nil|done].
Qed.

Lemma loop_yielded_prefix em evs st tr :
  ∃ frs,
    yielded (fst (for_each (loop_body em) st evs tr)) = yielded tr ++ frs
    ∧ frs `prefix_of` expected_output evs.
Proof.
  revert st tr. induction evs as [|e evs IH]; intros st tr.
  - exists []. simpl. by rewrite app_nil_r.
  - loop_step em st e tr Hstep.
    destruct (loop_body em st e tr) as [tr1 c].
    apply step_yielded_prefix in Hstep as (frs & Hy & Hpre & Hall).
    destruct c as [st1|x].
    + destruct (IH st1 tr1) as (frs' & Hy' & Hpre').
      exists (frs ++ frs'). rewrite Hy', Hy, <- app_assoc. split; [done|].
      rewrite (Hall st1 eq_refl). simpl. by apply prefix_app.
    + exists frs. split; [done|]. simpl.
      etrans; [done|]. by apply prefix_app_r.
Qed.

Lemma output_is_prefix_of_expected em s :
  yielded (fst (pipe_tools em s [])) `prefix_of` expected_output (items s).
Proof.
  rewrite pipe_tools_unfold.
  destruct (loop_yielded_prefix em (items s) initial_state [])
    as (frs & Hy & Hpre).
  destruct (for_each _ _ _ _) as [tr [st|x]]; simpl in Hy; subst frs.
  - destruct (failure s); [done|].
    destruct (reconcile_trace em st tr) as (names & _ & -> & _).
    rewrite yielded_app.
    assert (yielded (Notify ∘ failed_status <$> names) = []) as ->.
    { clear. induction names; simpl; auto. }
    by rewrite app_nil_r.
  - done.
Qed.

(** C4: when the loop has handled every event of the stream, the fragments
    the turn yields are, event by event and in the order of the stream, the
    content of each text delta with content and a newline for each tool
    start: every delta is yielded once, at its place. *)
Theorem text_deltas_in_stream_order em s tr st :
  for_each (loop_body em) initial_state (items s) [] = (tr, Normal st) ->
  yielded (fst (pipe_tools em s [])) = expected_output (items s).
Proof.
  intros Hloop. rewrite pipe_tools_unfold, Hloop.
  apply loop_yielded in Hloop. simpl in Hloop.
  destruct (failure s) as [x|]; [done|].
  destruct (reconcile_trace em st tr) as (names & _ & -> & _).
  rewrite yielded_app, Hloop.
  assert (yielded (Notify ∘ failed_status <$> names) = []) as ->.
  { clear. induction names; simpl; auto. }
  by rewrite app_nil_r.
Qed.

Lemma text_deltas_in_stream_order_witness :
  yielded (fst (pipe_tools None
    (ended [text_delta "2+2"; text_delta EmptyString; tool_start "calculator";
            tool_end "calculator" "{}" "4"; text_delta " is "; text_delta "4"])
    []))
  = ["2+2"; newline; " is "; "4"].
Proof.
  apply (text_deltas_in_stream_order None
    (ended [text_delta "2+2"; text_delta EmptyString; tool_start "calculator";
            tool_end "calculator" "{}" "4"; text_delta " is "; text_delta "4"])
    [Yield "2+2"; Yield newline; Notify (SendStatus (Running "calculator") false);
     Notify (SendStatus (ToolReturned "calculator" "4") true);
     Notify (SendCitation "Tool call 1" "calculator"
               "Tool 'calculator' with inputs {} returned 4");
     Yield " is "; Yield "4"]
    {| num_tool_calls := 1; started_tools := {["calculator"]} ∖ {["calculator"]} |}).
  vm_compute. reflexivity.
Defined.

(** ** The numbering of the citations *)

Lemma citations_app tr1 tr2 :
  citations (tr1 ++ tr2) = citations tr1 ++ citations tr2.
Proof. unfold citations. by rewrite notifier_calls_app, filter_app. Qed.

Lemma tool_ends_snoc evs e :
  tool_ends (evs ++ [e]) =
  tool_ends evs ++ (if decide (ev_event e = "on_tool_end") then [e] else []).
Proof.
  unfold tool_ends. by rewrite filter_app.
Qed.

Lemma expected_citations_snoc evs e :
  expected_citations (evs ++ [e]) =
  expected_citations evs ++
  (if decide (ev_event e = "on_tool_end")
   then [tool_call_citation (S (length (tool_ends evs))) e] else []).
Proof.
  unfold expected_citations. rewrite tool_ends_snoc, imap_app.
  case_decide; simpl; by rewrite ?Nat.add_0_r.
Qed.

Lemma expected_citations_prefix evs1 evs2 :
  expected_citations evs1 `prefix_of` expected_citations (evs1 ++ evs2).
Proof.
  unfold expected_citations, tool_ends.
  rewrite filter_app, imap_app. by apply prefix_app_r.
Qed.

(** What one step adds to the citations and to the counter. *)
Lemma step_citations em st e tr tr' c evs0 :
  step em st e tr (tr', c) ->
  num_tool_calls st = length (tool_ends evs0) ->
  citations tr = expected_citations evs0 ->
  citations tr' `prefix_of` expected_citations (evs0 ++ [e]) ∧
  ∀ st', c = Normal st' ->
    citations tr' = expected_citations (evs0 ++ [e]) ∧
    num_tool_calls st' = length (tool_ends (evs0 ++ [e])).
Proof.
  intros Hstep Hnum Hcit.
  rewrite expected_citations_snoc, tool_ends_snoc, length_app.
  inversion Hstep as
    [c' Hd| Hd Hs He | Hs _ | x Hs _ | He _ _ _ | He _ _ _ | x He _
    | x He _ _]; subst;
    rewrite ?citations_app, ?Hcit, ?Hnum; simpl;
    try apply delta_content_kind in Hd;
    repeat case_decide; try congruence; simpl;
    rewrite ?app_nil_r, ?Nat.add_0_r, ?Nat.add_1_r;
    (split; [try done; try (by apply prefix_app_r)|]);
    try (by intros ? [= <-]); try done.
  intros st' [= <-]. simpl. by rewrite Hnum.
Qed.

Lemma loop_citations em evs evs0 st tr :
  num_tool_calls st = length (tool_ends evs0) ->
  citations tr = expected_citations evs0 ->
  citations (fst (for_each (loop_body em) st evs tr))
    `prefix_of` expected_citations (evs0 ++ evs) ∧
  ∀ st', snd (for_each (loop_body em) st evs tr) = Normal st' ->
    citations (fst (for_each (loop_body em) st evs tr))
    = expected_citations (evs0 ++ evs).
Proof.
  revert evs0 st tr. induction evs as [|e evs IH]; intros evs0 st tr Hn Hc.
  - simpl. rewrite app_nil_r, Hc. done.
  - loop_step em st e tr Hstep.
    destruct (loop_body em st e tr) as [tr1 c].
    destruct (step_citations _ _ _ _ _ _ evs0 Hstep Hn Hc) as [Hpre Hok].
    replace (evs0 ++ e :: evs) with ((evs0 ++ [e]) ++ evs)
      by (by rewrite <- app_assoc).
    destruct c as [st1|x].
    + destruct (Hok st1 eq_refl) as [Hc1 Hn1]. by apply IH.
    + simpl. split; [|done].
      etrans; [apply Hpre|]. apply expected_citations_prefix.
Qed.

Lemma citations_failed names :
  citations (Notify ∘ failed_status <$> names) = [].
Proof. induction names; simpl; auto. Qed.




(** X6: when the loop has handled every event, every tool end has its
    citation: the citations of the turn are, in the order of the stream,
    one for each [on_tool_end] event, numbered from 1. *)
Lemma every_tool_end_is_cited em s tr st :
  for_each (loop_body em) initial_state (items s) [] = (tr, Normal st) ->
  citations (fst (pipe_tools em s [])) = expected_citations (items s).
Proof.
  intros Hloop. rewrite pipe_tools_unfold, Hloop.
  destruct (loop_citations em (items s) [] initial_state []) as [_ Hall];
    [done..|]. rewrite Hloop in Hall. specialize (Hall st eq_refl).
  simpl in Hall. destruct (failure s); [done|].
  destruct (reconcile_trace em st tr) as (names & _ & -> & _).
  by rewrite citations_app, citations_failed, app_nil_r.
Qed.

(** ** One terminal status for each started tool *)

Lemma terminal_statuses_app N tr1 tr2 :
  terminal_statuses N (tr1 ++ tr2)
  = terminal_statuses N tr1 ++ terminal_statuses N tr2.
Proof.
  unfold terminal_statuses. by rewrite notifier_calls_app, filter_app.
Qed.

Lemma starts_of_cons N e evs :
  length (starts_of N (e :: evs)) =
  (if decide (ev_event e = "on_tool_start" ∧ ev_name e = N) then 1 else 0)
  + length (starts_of N evs).
Proof. unfold starts_of. rewrite filter_cons. by case_decide. Qed.

Lemma pending_insert N name (X : gset string) :
  (name = N -> N ∉ X) ->
  pending N ({[name]} ∪ X)
  = (if decide (name = N) then 1 else 0) + pending N X.
Proof.
  intros Hn. unfold pending. destruct (decide (name = N)) as [->|Hne].
  - rewrite decide_True, decide_False; [done|by apply Hn|].
    apply elem_of_union_l, elem_of_singleton_2. done.
  - destruct (decide (N ∈ X)) as [Hin|Hin].
    + rewrite decide_True; [done|]. by apply elem_of_union_r.
    + rewrite decide_False; [done|].
      rewrite elem_of_union, elem_of_singleton.
      intros [?|?]; [congruence|done].
Qed.

Lemma pending_remove N name (X : gset string) :
  name ∈ X ->
  (if decide (name = N) then 1 else 0) + pending N (X ∖ {[name]})
  = pending N X.
Proof.
  intros Hn. unfold pending. destruct (decide (name = N)) as [->|Hne].
  - rewrite decide_False, decide_True; [done..|].
    rewrite elem_of_difference, elem_of_singleton. intros [_ ?]. congruence.
  - destruct (decide (N ∈ X)) as [Hin|Hin].
    + rewrite decide_True; [done|].
      rewrite elem_of_difference, elem_of_singleton.
      split; [done|congruence].
    + rewrite decide_False; [done|].
      rewrite elem_of_difference. intros [? _]. done.
Qed.

(** What one step adds to the terminal statuses for [N] and to the tools
    that are pending, when it does not start [N] again. *)
Lemma step_terminal N em st e tr tr' st' :
  step em st e tr (tr', Normal st') ->
  (ev_event e = "on_tool_start" -> ev_name e = N -> N ∉ started_tools st) ->
  length (terminal_statuses N tr') + pending N (started_tools st')
  = length (terminal_statuses N tr) + pending N (started_tools st)
    + (if decide (ev_event e = "on_tool_start" ∧ ev_name e = N)
       then 1 else 0).
Proof.
  intros Hstep Hfresh.
  destruct (decide (ev_event e = "on_tool_start" ∧ ev_name e = N))
    as [[Hs HN]|Hno];
    inversion Hstep as
      [c' Hd| Hd Hs' He | Hs' _ | | He _ _ Hin | | |]; subst;
    rewrite ?terminal_statuses_app, ?length_app;
    try apply delta_content_kind in Hd; try congruence.
  - simpl started_tools. rewrite pending_insert by auto.
    rewrite decide_True by done. simpl. lia.
  - simpl. lia.
  - lia.
  - simpl started_tools. rewrite pending_insert by auto.
    rewrite decide_False by tauto. simpl. lia.
  - simpl started_tools. rewrite <- (pending_remove N _ _ Hin).
    unfold terminal_statuses, returned_status, tool_call_citation. simpl.
    rewrite filter_cons, filter_cons, filter_nil. simpl.
    destruct (decide (ev_name e = N)) as [->|Hne].
    + rewrite decide_True by (by rewrite bool_decide_eq_true). simpl. lia.
    + rewrite decide_False by (by rewrite bool_decide_eq_true). simpl. lia.
Qed.

(** The flag of [no_restart] follows [started_tools]. *)
Lemma step_no_restart N em st e tr tr' st' evs :
  step em st e tr (tr', Normal st') ->
  no_restart N (bool_decide (N ∈ started_tools st)) (e :: evs) = true ->
  (ev_event e = "on_tool_start" -> ev_name e = N -> N ∉ started_tools st)
  ∧ no_restart N (bool_decide (N ∈ started_tools st')) evs = true.
Proof.
  intros Hstep Hnr. simpl in Hnr.
  inversion Hstep as
    [c' Hd| Hd Hs He | Hs _ | | He _ _ Hin | | |]; subst.
  - apply delta_content_kind in Hd.
    rewrite !decide_False in Hnr by (intros [? _]; congruence).
    split; [congruence|done].
  - rewrite !decide_False in Hnr by (intros [? _]; congruence).
    split; [congruence|done].
  - simpl started_tools.
    destruct (decide (ev_event e = "on_tool_start" ∧ ev_name e = N))
      as [[_ HN]|Hno].
    + apply andb_true_iff in Hnr as [Hf Hnr].
      apply negb_true_iff, bool_decide_eq_false in Hf.
      split; [done|]. rewrite bool_decide_eq_true_2; [done|].
      apply elem_of_union_l, elem_of_singleton_2. done.
    + rewrite decide_False in Hnr by (intros [? _]; congruence).
      split; [tauto|].
      rewrite (bool_decide_ext _ (N ∈ started_tools st)); [done|].
      rewrite elem_of_union, elem_of_singleton. split; [|tauto].
      intros [->|?]; [tauto|done].
  - simpl started_tools.
    rewrite decide_False in Hnr by (intros [? _]; congruence).
    split; [congruence|].
    destruct (decide (ev_event e = "on_tool_end" ∧ ev_name e = N))
      as [[_ HN]|Hno].
    + rewrite bool_decide_eq_false_2; [done|].
      rewrite elem_of_difference, elem_of_singleton. intros [_ ?]. congruence.
    + rewrite (bool_decide_ext _ (N ∈ started_tools st)); [done|].
      rewrite elem_of_difference, elem_of_singleton. split; [tauto|].
      intros ?. split; [done|]. intros ->. tauto.
Qed.

Lemma loop_terminal N em evs st tr tr' st' :
  for_each (loop_body em) st evs tr = (tr', Normal st') ->
  no_restart N (bool_decide (N ∈ started_tools st)) evs = true ->
  length (terminal_statuses N tr') + pending N (started_tools st')
  = length (terminal_statuses N tr) + pending N (started_tools st)
    + length (starts_of N evs).
Proof.
  revert st tr. induction evs as [|e evs IH]; intros st tr.
  - simpl. unfold mret, gen_mret, gen_ret. intros [= <- <-] _. simpl. lia.
  - loop_step em st e tr Hstep.
    destruct (loop_body em st e tr) as [tr1 [st1|x]]; [|done].
    intros Hrest Hnr. rewrite starts_of_cons.
    destruct (step_no_restart N _ _ _ _ _ _ _ Hstep Hnr) as [Hfresh Hnr1].
    apply (IH _ _ Hrest) in Hnr1.
    pose proof (step_terminal N _ _ _ _ _ _ Hstep Hfresh). lia.
Qed.

Lemma terminal_statuses_failed_cons N name tr :
  length (terminal_statuses N (Notify (failed_status name) :: tr))
  = (if decide (name = N) then 1 else 0) + length (terminal_statuses N tr).
Proof.
  unfold terminal_statuses. simpl. rewrite filter_cons. simpl.
  destruct (decide (name = N)) as [->|Hne].
  - by rewrite decide_True by (by rewrite bool_decide_eq_true).
  - by rewrite decide_False by (by rewrite bool_decide_eq_true).
Qed.

Lemma terminal_statuses_failed N (names : list string) :
  NoDup names ->
  length (terminal_statuses N (Notify ∘ failed_status <$> names))
  = if decide (N ∈ names) then 1 else 0.
Proof.
  induction 1 as [|name names Hnotin Hnd IH].
  - done.
  - rewrite fmap_cons. unfold compose at 1.
    rewrite terminal_statuses_failed_cons, IH.
    destruct (decide (name = N)) as [->|Hne].
    + rewrite decide_False by done.
      by rewrite decide_True by apply list_elem_of_here.
    + destruct (decide (N ∈ names)) as [Hin|Hin].
      * rewrite decide_True; [done|]. by apply list_elem_of_further.
      * rewrite decide_False; [done|].
        rewrite elem_of_cons. intros [?|?]; [congruence|done].
Qed.

Lemma no_restart_app N active evs1 evs2 :
  no_restart N active (evs1 ++ evs2) = true ->
  no_restart N active evs1 = true.
Proof.
  revert active. induction evs1 as [|e evs1 IH]; intros active; simpl.
  - done.
  - repeat case_decide; try apply IH.
    rewrite !andb_true_iff. intros [? ?]. split; [done|]. by eapply IH.
Qed.

Lemma loop_normal_prefix em pre post st tr tr' st' :
  for_each (loop_body em) st (pre ++ post) tr = (tr', Normal st') ->
  ∃ tr1 st1,
    for_each (loop_body em) st pre tr = (tr1, Normal st1) ∧
    for_each (loop_body em) st1 post tr1 = (tr', Normal st').
Proof.
  rewrite for_each_app.
  destruct (for_each (loop_body em) st pre tr) as [tr1 [st1|x]]; [|done].
  intros H. by exists tr1, st1.
Qed.

Lemma pipe_tools_normal em s tr :
  pipe_tools em s [] = (tr, Normal ()) ->
  ∃ tr_loop st,
    for_each (loop_body em) initial_state (items s) [] = (tr_loop, Normal st)
    ∧ failure s = None
    ∧ tr = tr_loop ++ (Notify ∘ failed_status <$> elements (started_tools st)).
Proof.
  rewrite pipe_tools_unfold.
  destruct (for_each _ _ _ _) as [tr_loop [st|x]]; [|done].
  destruct (failure s); [done|]. intros Hrec.
  destruct (reconcile_trace em st tr_loop) as (names & _ & Htr & Hall).
  rewrite Hrec in Htr, Hall. simpl in *.
  exists tr_loop, st. by rewrite <- Hall.
Qed.

Lemma step_running_is_not_done em st e tr tr' c :
  step em st e tr (tr', c) ->
  Forall running_is_not_done (notifier_calls tr) ->
  Forall running_is_not_done (notifier_calls tr').
Proof.
  intros Hstep Htr.
  inversion Hstep; subst; rewrite ?notifier_calls_app;
    try apply Forall_app_2; try done; simpl; repeat constructor.
Qed.

Lemma loop_running_is_not_done em evs st tr :
  Forall running_is_not_done (notifier_calls tr) ->
  Forall running_is_not_done
    (notifier_calls (fst (for_each (loop_body em) st evs tr))).
Proof.
  revert st tr. induction evs as [|e evs IH]; intros st tr Htr; [done|].
  loop_step em st e tr Hstep.
  destruct (loop_body em st e tr) as [tr1 [st1|x]].
  - apply IH. by eapply step_running_is_not_done.
  - simpl. by eapply step_running_is_not_done.
Qed.

Lemma terminal_status_shape N c :
  running_is_not_done c -> is_terminal_for N c = true ->
  c = failed_status N ∨ ∃ out, c = SendStatus (ToolReturned N out) true.
Proof.
  destruct c as [[name|name out|name] [|]|]; simpl; try done.
  - intros _ ->%bool_decide_eq_true. right. by exists out.
  - intros _ ->%bool_decide_eq_true. by left.
Qed.

(** C1: in a turn that completes, on a stream in which no [on_tool_start]
    for the tool [N] comes while [N] is active, the terminal statuses for [N]
    (status calls about [N] with [done=True]) are as many as the
    [on_tool_start] events for [N], each of them is the 'returned' or the
    'failed' status, and after any number of events of the stream they are
    at most as many as the starts of [N] so far and at most one behind: each
    started instance gets exactly one terminal status, and never a second. *)
Theorem one_terminal_status_per_started_tool em s tr N :
  pipe_tools em s [] = (tr, Normal ()) ->
  no_restart N false (items s) = true ->
  length (terminal_statuses N tr) = length (starts_of N (items s))
  ∧ (∀ c, c ∈ terminal_statuses N tr ->
          c = failed_status N ∨ ∃ out, c = SendStatus (ToolReturned N out) true)
  ∧ (∀ pre post, items s = pre ++ post ->
       (length (terminal_statuses N
                  (fst (for_each (loop_body em) initial_state pre [])))
          ≤ length (starts_of N pre))%nat
       ∧ (length (starts_of N pre)
          ≤ S (length (terminal_statuses N
                  (fst (for_each (loop_body em) initial_state pre [])))))%nat).
Proof.
  intros Hrun Hnr.
  destruct (pipe_tools_normal _ _ _ Hrun) as (tr_loop & st & Hloop & _ & ->).
  split_and!.
  - pose proof (loop_terminal N _ _ _ _ _ _ Hloop Hnr) as Hinv.
    rewrite terminal_statuses_app, length_app.
    rewrite terminal_statuses_failed by apply NoDup_elements.
    unfold pending in Hinv. simpl in Hinv.
    rewrite (decide_False (P := N ∈ (∅ : gset string))) in Hinv
      by apply not_elem_of_empty.
    destruct (decide (N ∈ started_tools st)) as [Hin|Hin].
    + rewrite decide_True by (by apply elem_of_elements). lia.
    + rewrite decide_False by (by rewrite elem_of_elements). lia.
  - intros c [Hterm Hc]%list_elem_of_filter.
    apply terminal_status_shape; [|done].
    clear Hterm. revert c Hc. apply Forall_forall.
    rewrite notifier_calls_app. apply Forall_app_2.
    + pose proof (loop_running_is_not_done em (items s) initial_state [])
        as Hshape. rewrite Hloop in Hshape. apply Hshape. constructor.
    + clear. induction (elements _); simpl; constructor; done.
  - intros pre post Hsplit. rewrite Hsplit in Hloop, Hnr.
    apply loop_normal_prefix in Hloop as (tr1 & st1 & Hpre & _).
    apply no_restart_app in Hnr.
    pose proof (loop_terminal N _ _ _ _ _ _ Hpre Hnr) as Hinv.
    rewrite Hpre. simpl in *. unfold pending in Hinv.
    rewrite (decide_False (P := N ∈ (∅ : gset string))) in Hinv
      by apply not_elem_of_empty.
    destruct (decide (N ∈ started_tools st1)); lia.
Qed.

Lemma one_terminal_status_per_started_tool_witness :
  length (terminal_statuses "search"
    [Yield newline; Notify (SendStatus (Running "search") false);
     Yield newline; Notify (SendStatus (Running "calculator") false);
     Notify (SendStatus (ToolReturned "calculator" "4") true);
     Notify (SendCitation "Tool call 1" "calculator"
               "Tool 'calculator' with inputs {} returned 4");
     Yield "Done.";
     Notify (SendStatus (ToolFailed "search") true)])
  = length (starts_of "search"
      [tool_start "search"; tool_start "calculator";
       tool_end "calculator" "{}" "4"; text_delta "Done."]).
Proof.
  refine (proj1 (one_terminal_status_per_started_tool None
    (ended [tool_start "search"; tool_start "calculator";
            tool_end "calculator" "{}" "4"; text_delta "Done."])
    _ "search" _ _)).
  - vm_compute. reflexivity.
  - vm_compute. reflexivity.
Defined.

(** C1 fails as stated for a turn that an exception ends. On the stream of
    an [on_tool_start] for "search" and an [on_tool_end] for "calc", a tool
    that is not started, no [on_tool_start] for "search" comes while
    "search" is active and the stream ends by exhaustion; the turn ends with
    [KeyError] at [started_tools.remove], the loop after the stream does not
    run, and "search" has one start and no terminal status. *)
Lemma aborted_turn_leaves_started_tool_without_status :
  no_restart "search" false
    [tool_start "search"; tool_end "calc" "{}" "4"] = true
  ∧ length (starts_of "search"
              [tool_start "search"; tool_end "calc" "{}" "4"]) = 1
  ∧ pipe_tools None
      (ended [tool_start "search"; tool_end "calc" "{}" "4"]) []
    = ([Yield newline; Notify (SendStatus (Running "search") false);
        Notify (SendStatus (ToolReturned "calc" "4") true);
        Notify (SendCitation "Tool call 1" "calc"
                  "Tool 'calc' with inputs {} returned 4")],
       Raised (KeyError "calc"))
  ∧ terminal_statuses "search"
      (fst (pipe_tools None
              (ended [tool_start "search"; tool_end "calc" "{}" "4"]) []))
    = [].
Proof. split_and!; reflexivity. Qed.

(** ** Tools that never finish *)

Lemma sent_for_mono evs1 evs2 eff :
  evs1 ⊆ evs2 -> sent_for evs1 eff -> sent_for evs2 eff.
Proof.
  intros Hsub. destruct eff as [|c]; [done|].
  intros (e & Hin & H). exists e. split; [by apply Hsub|done].
Qed.

(** The effects of one step, and where its notifier calls come from. *)
Lemma step_sent_for em st e tr tr' c :
  step em st e tr (tr', c) ->
  ∃ d, tr' = tr ++ d ∧ Forall (sent_for [e]) d.
Proof.
  assert (e ∈ [e]) as Hin by apply list_elem_of_here.
  inversion 1; subst; eexists; (split; [try done|]);
    try (by rewrite app_nil_r); repeat constructor;
    exists e; (split; [done|]); eauto 6.
Qed.

Lemma loop_sent_for em evs st tr :
  ∃ d, fst (for_each (loop_body em) st evs tr) = tr ++ d
       ∧ Forall (sent_for evs) d.
Proof.
  revert st tr. induction evs as [|e evs IH]; intros st tr.
  - exists []. simpl. by rewrite app_nil_r.
  - loop_step em st e tr Hstep.
    destruct (loop_body em st e tr) as [tr1 c].
    apply step_sent_for in Hstep as (d1 & -> & Hd1).
    assert (Forall (sent_for (e :: evs)) d1) as Hd1'.
    { eapply Forall_impl; [done|]. intros eff. apply sent_for_mono.
      intros x ->%list_elem_of_singleton. apply list_elem_of_here. }
    destruct c as [st1|x].
    + destruct (IH st1 (tr ++ d1)) as (d2 & -> & Hd2).
      exists (d1 ++ d2). split; [by rewrite app_assoc|].
      apply Forall_app_2; [done|].
      eapply Forall_impl; [done|]. intros eff. apply sent_for_mono.
      intros x Hx. by apply list_elem_of_further.
    + by exists d1.
Qed.

(** The loop itself never reports a tool as failed, whether or not the
    turn completes. *)
Lemma loop_never_reports_failure em evs name done :
  Notify (SendStatus (ToolFailed name) done)
    ∉ fst (for_each (loop_body em) initial_state evs []).
Proof.
  destruct (loop_sent_for em evs initial_state []) as (d & -> & Hsent).
  simpl. intros Hin. eapply Forall_forall in Hsent; [|done].
  destruct Hsent as (e' & _ & [[_ [=]]|[_ [[=]|[k [=]]]]]).
Qed.

(** A started tool stays started until an [on_tool_end] for its name. *)
Lemma loop_keeps_started N em evs st tr tr' st' :
  for_each (loop_body em) st evs tr = (tr', Normal st') ->
  N ∈ started_tools st ->
  (∀ e, e ∈ evs -> ev_event e = "on_tool_end" -> ev_name e ≠ N) ->
  N ∈ started_tools st'.
Proof.
  revert st tr. induction evs as [|e evs IH]; intros st tr.
  - simpl. unfold mret, gen_mret, gen_ret. by intros [= <- <-].
  - loop_step em st e tr Hstep.
    destruct (loop_body em st e tr) as [tr1 [st1|x]]; [|done].
    intros Hrest Hin Hends. eapply IH; [done| |].
    + inversion Hstep as
        [c' Hd| Hd Hs He | Hs _ | | He _ _ _ | | |]; subst; try done.
      * simpl. by apply elem_of_union_r.
      * simpl. rewrite elem_of_difference, elem_of_singleton.
        split; [done|]. intros ->. eapply Hends; [|done..].
        apply list_elem_of_here.
    + intros e' He'. apply Hends. by apply list_elem_of_further.
Qed.

(** C3: on a stream with an [on_tool_start] for [N] after which no
    [on_tool_end] for [N] comes. In a turn that completes, which the stream
    ends by exhaustion, the trace splits into the effects before that
    event, the effects of the rest of the loop and the effects after the
    loop, such that the status "Tool 'N' failed." with [done=True] is sent
    after the loop, no 'failed' status is sent by the loop, and no citation
    with title [N] is sent from that event on. In a turn whose stream ends
    with an exception, no 'failed' status is sent at all. *)
Theorem unfinished_tool_is_reported_failed em pre e post fin :
  ev_event e = "on_tool_start" ->
  (∀ e', e' ∈ post -> ev_event e' = "on_tool_end" ->
         ev_name e' ≠ ev_name e) ->
  (∀ tr,
     pipe_tools em {| items := pre ++ e :: post; failure := fin |} []
     = (tr, Normal ()) ->
     ∃ tr_pre tr_post tr_end,
       tr = tr_pre ++ tr_post ++ tr_end
       ∧ fst (for_each (loop_body em) initial_state pre []) = tr_pre
       ∧ fst (for_each (loop_body em) initial_state (pre ++ e :: post) [])
         = tr_pre ++ tr_post
       ∧ Notify (failed_status (ev_name e)) ∈ tr_end
       ∧ host_event_of (failed_status (ev_name e))
         = StatusEvent ("Tool '" +:+ ev_name e +:+ "' failed.") true
       ∧ (∀ name done,
            Notify (SendStatus (ToolFailed name) done) ∉ tr_pre ++ tr_post)
       ∧ (∀ url content,
            Notify (SendCitation url (ev_name e) content)
              ∉ tr_post ++ tr_end))
  ∧ (∀ x name done,
       fin = Some x ->
       snd (pipe_tools em {| items := pre ++ e :: post; failure := fin |} [])
       ≠ Normal ()
       ∧ Notify (SendStatus (ToolFailed name) done)
           ∉ fst (pipe_tools em
                    {| items := pre ++ e :: post; failure := fin |} [])).
Proof.
  intros Hstart Hnoend. split.
  - intros tr Hrun.
    destruct (pipe_tools_normal _ _ _ Hrun)
      as (tr_loop & st & Hloop & _ & ->).
    simpl items in Hloop.
    destruct (loop_normal_prefix _ _ _ _ _ _ _ Hloop)
      as (tr_pre & st_pre & Hpre & Hrest).
    destruct (loop_sent_for em (e :: post) st_pre tr_pre)
      as (d & Hd & Hsent).
    rewrite Hrest in Hd. simpl in Hd. subst tr_loop.
    destruct (loop_sent_for em pre initial_state []) as (d0 & Hd0 & Hsent0).
    rewrite Hpre in Hd0. simpl in Hd0. subst tr_pre.
    exists d0, d, (Notify ∘ failed_status <$> elements (started_tools st)).
    split_and!.
    + by rewrite app_assoc.
    + by rewrite Hpre.
    + by rewrite Hloop.
    + apply list_elem_of_fmap. exists (ev_name e). split; [done|].
      apply elem_of_elements.
      simpl for_each in Hrest. rewrite bind_unfold in Hrest.
      pose proof (loop_body_step em st_pre e d0) as Hstep.
      destruct (loop_body em st_pre e d0) as [tr1 [st1|x]]; [|done].
      eapply loop_keeps_started; [done| |done].
      inversion Hstep as
        [c' Hd| Hd Hs He | Hs _ | | He _ _ _ | | |]; subst;
        try apply delta_content_kind in Hd; try congruence.
      simpl. apply elem_of_union_l. by apply elem_of_singleton.
    + done.
    + intros name done [Hin|Hin]%elem_of_app.
      * eapply Forall_forall in Hsent0; [|done].
        destruct Hsent0 as (e' & _ & [[_ [=]]|[_ [[=]|[k [=]]]]]).
      * eapply Forall_forall in Hsent; [|done].
        destruct Hsent as (e' & _ & [[_ [=]]|[_ [[=]|[k [=]]]]]).
    + intros url content [Hin|Hin]%elem_of_app.
      * eapply Forall_forall in Hsent; [|done].
        destruct Hsent
          as (e' & He' & [[_ [=]]|[Hend [[=]|[k [= _ Hname _]]]]]).
        apply elem_of_cons in He' as [->|He']; [congruence|].
        by eapply Hnoend.
      * apply list_elem_of_fmap in Hin as (name & [=] & _).
  - intros x name done ->. rewrite pipe_tools_unfold. simpl items.
    simpl failure.
    pose proof (loop_never_reports_failure em (pre ++ e :: post) name done)
      as Hloop.
    destruct (for_each (loop_body em) initial_state (pre ++ e :: post) [])
      as [tr_loop [st|x']]; simpl in *; by split.
Qed.

Lemma unfinished_tool_is_reported_failed_witness :
  ∃ tr_pre tr_post tr_end,
    [Yield "Searching."; Yield newline;
     Notify (SendStatus (Running "search") false); Yield "Sorry.";
     Notify (SendStatus (ToolFailed "search") true)]
    = tr_pre ++ tr_post ++ tr_end
    ∧ fst (for_each (loop_body None) initial_state
             [text_delta "Searching."] []) = tr_pre
    ∧ fst (for_each (loop_body None) initial_state
             ([text_delta "Searching."] ++ tool_start "search"
                :: [text_delta "Sorry."]) [])
      = tr_pre ++ tr_post
    ∧ Notify (failed_status "search") ∈ tr_end
    ∧ host_event_of (failed_status "search")
      = StatusEvent ("Tool '" +:+ "search" +:+ "' failed.") true
    ∧ (∀ name done,
         Notify (SendStatus (ToolFailed name) done) ∉ tr_pre ++ tr_post)
    ∧ (∀ url content,
         Notify (SendCitation url "search" content) ∉ tr_post ++ tr_end).
Proof.
  refine (proj1 (unfinished_tool_is_reported_failed None
                   [text_delta "Searching."] (tool_start "search")
                   [text_delta "Sorry."] None _ _) _ _).
  - reflexivity.
  - intros e' ->%list_elem_of_singleton. discriminate.
  - vm_compute. reflexivity.
Defined.

(** C3 fails as stated for a stream that ends with an exception. On the
    stream of an [on_tool_start] for "search" that then raises, no
    [on_tool_end] for "search" comes; the exception of the stream ends the
    turn, the loop after the stream does not run, and the status
    "Tool 'search' failed." is never sent. *)
Lemma failing_stream_reports_no_failed_tool :
  pipe_tools None
    {| items := [tool_start "search"];
       failure := Some (ValueError "model call failed") |} []
  = ([Yield newline; Notify (SendStatus (Running "search") false)],
     Raised (ValueError "model call failed"))
  ∧ Notify (failed_status "search")
      ∉ fst (pipe_tools None
               {| items := [tool_start "search"];
                  failure := Some (ValueError "model call failed") |} []).
Proof.
  split; [reflexivity|]. simpl.
  by intros [[=]|[[=]|?%not_elem_of_nil]%elem_of_cons]%elem_of_cons.
Qed.

(** ** A notifier that raises *)

Lemma completed_from_app em i tr1 tr2 :
  completed_from em i (tr1 ++ tr2) ↔
  completed_from em i tr1 ∧
  completed_from em (i + length (notifier_calls tr1)) tr2.
Proof.
  revert i. induction tr1 as [|[s|c] tr1 IH]; intros i; simpl.
  - rewrite Nat.add_0_r. tauto.
  - apply IH.
  - rewrite IH. replace (S i + length (notifier_calls tr1))
      with (i + S (length (notifier_calls tr1))) by lia. tauto.
Qed.

Lemma completed_snoc_yield em tr s :
  completed em tr -> completed em (tr ++ [Yield s]).
Proof. intros H. apply completed_from_app. by split. Qed.

Lemma completed_snoc_notify em tr c :
  completed em tr ->
  await_outcome em (length (notifier_calls tr)) (host_event_of c) = None ->
  completed em (tr ++ [Notify c]).
Proof. intros H Hc. apply completed_from_app. by repeat split. Qed.

Lemma step_completed_or_aborted em st e tr r :
  step em st e tr r -> completed em tr -> completed_or_aborted em r.
Proof.
  intros Hstep Htr.
  assert (∀ s, length (notifier_calls (tr ++ [Yield s]))
               = length (notifier_calls tr)) as Hy.
  { intros s. rewrite notifier_calls_app. simpl. by rewrite app_nil_r. }
  assert (∀ c, length (notifier_calls (tr ++ [Notify c]))
               = S (length (notifier_calls tr))) as Hn.
  { intros c. rewrite notifier_calls_app, length_app. simpl. lia. }
  inversion Hstep as
    [c' Hd| Hd Hs He | Hs H1 | x Hs H1 | He H1 H2 Hin | He H1 H2 Hin
    | x He H1 | x He H1 H2]; subst.
  - left. by apply completed_snoc_yield.
  - by left.
  - left. simpl. change (tr ++ [Yield newline; Notify (running_status e)])
      with (tr ++ [Yield newline] ++ [Notify (running_status e)]).
    rewrite app_assoc. apply completed_snoc_notify.
    + by apply completed_snoc_yield.
    + by rewrite Hy.
  - right. exists (tr ++ [Yield newline]), (running_status e), x. simpl.
    split_and!; [by rewrite <- app_assoc| |by rewrite Hy|done].
    by apply completed_snoc_yield.
  - left. simpl.
    change (tr ++ [Notify (returned_status e);
                   Notify (tool_call_citation (S (num_tool_calls st)) e)])
      with (tr ++ [Notify (returned_status e)] ++
                  [Notify (tool_call_citation (S (num_tool_calls st)) e)]).
    rewrite app_assoc. apply completed_snoc_notify.
    + by apply completed_snoc_notify.
    + by rewrite Hn.
  - left. simpl.
    change (tr ++ [Notify (returned_status e);
                   Notify (tool_call_citation (S (num_tool_calls st)) e)])
      with (tr ++ [Notify (returned_status e)] ++
                  [Notify (tool_call_citation (S (num_tool_calls st)) e)]).
    rewrite app_assoc. apply completed_snoc_notify.
    + by apply completed_snoc_notify.
    + by rewrite Hn.
  - right. by exists tr, (returned_status e), x.
  - right. exists (tr ++ [Notify (returned_status e)]),
      (tool_call_citation (S (num_tool_calls st)) e), x. simpl.
    split_and!; [by rewrite <- app_assoc| |by rewrite Hn|done].
    by apply completed_snoc_notify.
Qed.

Lemma completed_of_normal {A} em (r : trace * completion A) a :
  completed_or_aborted em r -> snd r = Normal a -> completed em (fst r).
Proof. intros [H|(tr & c & x & _ & _ & _ & Hr)] Hn; [done|congruence]. Qed.

Lemma loop_completed_or_aborted em evs st tr :
  completed em tr ->
  completed_or_aborted em (for_each (loop_body em) st evs tr).
Proof.
  revert st tr. induction evs as [|e evs IH]; intros st tr Htr.
  - by left.
  - simpl for_each. rewrite bind_unfold.
    pose proof (step_completed_or_aborted _ _ _ _ _
                  (loop_body_step em st e tr) Htr) as Hstep.
    destruct (loop_body em st e tr) as [tr1 [st1|x]] eqn:Hbody.
    + apply IH. by apply (completed_of_normal em (tr1, Normal st1) st1).
    + destruct Hstep as [H|(tr0 & c & y & H1 & H2 & H3 & H4)]; [by left|].
      right. simpl in *. exists tr0, c, y. by injection H4 as ->.
Qed.

Lemma reconcile_completed_or_aborted em st tr :
  completed em tr -> completed_or_aborted em (reconcile em st tr).
Proof.
  unfold reconcile. generalize (elements (started_tools st)) as l.
  intros l. revert tr. induction l as [|name l IH]; intros tr Htr.
  - by left.
  - simpl for_each. rewrite bind_unfold, send_status_unfold.
    fold (failed_status name).
    destruct (await_outcome em _ _) as [x|] eqn:Hx.
    + right. by exists tr, (failed_status name), x.
    + apply IH. by apply completed_snoc_notify.
Qed.

Lemma pipe_tools_completed_or_aborted em s :
  completed_or_aborted em (pipe_tools em s []).
Proof.
  rewrite pipe_tools_unfold.
  pose proof (loop_completed_or_aborted em (items s) initial_state [] I)
    as Hloop.
  destruct (for_each _ _ _ _) as [tr [st|x]] eqn:Hfor.
  - apply (completed_of_normal em (tr, Normal st) st) in Hloop; [|done].
    destruct (failure s); [by left|].
    by apply reconcile_completed_or_aborted.
  - destruct Hloop as [H|(tr0 & c & y & H1 & H2 & H3 & H4)]; [by left|].
    right. simpl in *. exists tr0, c, y. by injection H4 as ->.
Qed.

(** C2 as the code has it: when awaiting a notifier call raises, the
    exception propagates: the call is the last effect of the turn, nothing
    is yielded after it, the turn ends with that exception, and what was
    yielded before it is the beginning of the output owed to the stream. *)
Theorem notifier_failure_ends_the_turn em s tr1 c tr2 x :
  fst (pipe_tools em s []) = tr1 ++ Notify c :: tr2 ->
  await_outcome em (length (notifier_calls tr1)) (host_event_of c) = Some x ->
  tr2 = []
  ∧ snd (pipe_tools em s []) = Raised x
  ∧ yielded tr1 `prefix_of` expected_output (items s).
Proof.
  intros Htr Hx.
  assert (tr2 = [] ∧ snd (pipe_tools em s []) = Raised x) as [-> Hraised].
  { destruct (pipe_tools_completed_or_aborted em s)
      as [Hall|(tr0 & c0 & y & H1 & H2 & H3 & H4)].
    - rewrite Htr in Hall. apply completed_from_app in Hall as [_ [Hc _]].
      simpl in Hc. congruence.
    - rewrite Htr in H1. destruct tr2 as [|eff tr2 _] using rev_ind.
      + apply (app_inj_tail tr1 tr0) in H1 as [-> [= ->]].
        split; [done|]. rewrite H4. congruence.
      + change (tr1 ++ Notify c :: tr2 ++ [eff])
          with (tr1 ++ (Notify c :: tr2) ++ [eff]) in H1.
        rewrite app_assoc in H1. apply app_inj_tail in H1 as [<- _].
        apply completed_from_app in H2 as [_ [Hc _]]. simpl in Hc.
        congruence. }
  split_and!; [done..|].
  pose proof (output_is_prefix_of_expected em s) as Hpre.
  rewrite Htr, yielded_app in Hpre. simpl in Hpre.
  by rewrite app_nil_r in Hpre.
Qed.

Lemma notifier_failure_ends_the_turn_witness :
  ([] : trace) = []
  ∧ snd (pipe_tools (Some closed_sink)
           (ended [tool_start "search"; text_delta "Hello"]) [])
    = Raised (HostError "connection closed")
  ∧ yielded [Yield newline]
    `prefix_of` expected_output [tool_start "search"; text_delta "Hello"].
Proof.
  apply (notifier_failure_ends_the_turn (Some closed_sink)
           (ended [tool_start "search"; text_delta "Hello"])
           [Yield newline] (SendStatus (Running "search") false) []
           (HostError "connection closed")); reflexivity.
Defined.

(** C2 fails as stated: with an emitter that raises, the turn on the stream
    of a tool start and the text "Hello" ends with the emitter's exception
    at the first status call, and "Hello" is never yielded, while the same
    stream without an emitter yields it. *)
Lemma raising_notifier_aborts_text_stream :
  pipe_tools (Some closed_sink)
    (ended [tool_start "search"; text_delta "Hello"]) []
  = ([Yield newline; Notify (SendStatus (Running "search") false)],
     Raised (HostError "connection closed"))
  ∧ yielded (fst (pipe_tools None
                    (ended [tool_start "search"; text_delta "Hello"]) []))
    = [newline; "Hello"].
Proof. split; reflexivity. Qed.

(** ** The run id of the streaming calls *)

Lemma first_request_info_spec cells :
  first_request_info cells =
  match first_dict_cell cells with
  | Some d => (dict_get d "chat_id", dict_get d "message_id")
  | None => (PyNone, PyNone)
  end.
Proof.
  unfold first_dict_cell. induction cells as [|[d|v] cells IH]; simpl; auto.
Qed.

Lemma extract_event_info_spec em :
  extract_event_info em =
  match request_info_of em with
  | Some d => (dict_get d "chat_id", dict_get d "message_id")
  | None => (PyNone, PyNone)
  end.
Proof.
  destruct em as [[[cells|] emit]|]; simpl; [|done..].
  destruct cells as [|c cells]; [done|]. apply first_request_info_spec.
Qed.

(** C9: [extract_event_info] returns the ["chat_id"] and ["message_id"]
    entries of the first cell of the emitter's closure that holds a dict, and
    [(None, None)] when there is no emitter, no closure or no such cell; and
    a turn that is neither the function-calling probe nor a title generation
    either raises before it calls a backend, or streams from [model.astream]
    or [graph.astream_events] with a config whose [run_id] is the first
    component of that result. *)
Theorem run_id_is_first_component_of_event_info
    {coroutine_t args_schema_t : Type}
    (invoke : chat_model -> list message -> config_t -> completion string)
    (astream : chat_model -> list message -> config_t -> stream string)
    (astream_events :
       @graph_t coroutine_t args_schema_t -> list message -> config_t ->
       stream event)
    self body user task tools em :
  task ≠ Some "function_calling" ->
  task ≠ Some "title_generation" ->
  extract_event_info em =
    match request_info_of em with
    | Some d => (dict_get d "chat_id", dict_get d "message_id")
    | None => (PyNone, PyNone)
    end
  ∧ ((∃ x, ∀ tr,
        pipe invoke astream astream_events self body user task tools em tr
        = (tr, Raised x))
     ∨ streams_with_run_id astream astream_events em (messages body)
         (fst (extract_event_info em))
         (pipe invoke astream astream_events self body user task tools em)).
Proof.
  intros Hprobe Htitle. split; [apply extract_event_info_spec|].
  unfold streams_with_run_id, pipe. destruct (extract_event_info em) as [message_id other].
  simpl fst.
  destruct (decide (task = Some "function_calling")) as [|_]; [done|].
  destruct (decide (task = Some "title_generation")) as [|_]; [done|].
  unfold subscript, mbind, gen_mbind, gen_bind, mret, gen_mret, gen_ret,
    raise, lift.
  destruct (setup (valves self)) as [self_|x]; [|left; by exists x].
  destruct (model_sources self !! after_first_dot (model body))
    as [source|]; [|left; by eexists].
  destruct (decide (source = "openai")) as [Hopenai|Hollama];
    [destruct (openai_kwargs self_) as [kwargs|]; [|left; by eexists]
    |destruct (ollama_kwargs self_) as [kwargs|]; [|left; by eexists]].
  all: destruct (langfuse_kwargs self_) as [lf|].
  all: try destruct user as [u|].
  all: try destruct (decide (u = ∅)).
  all: try (destruct (u !! "id"); [|left; by eexists]).
  all: right; eexists _, _.
  all: destruct tools as [[|item items]|];
    [by left|right; by eexists|by left].
Qed.

Lemma run_id_is_first_component_of_event_info_witness :
  extract_event_info (Some host_emitter) =
    match request_info_of (Some host_emitter) with
    | Some d => (dict_get d "chat_id", dict_get d "message_id")
    | None => (PyNone, PyNone)
    end
  ∧ ((∃ x, ∀ tr,
        pipe echo_invoke echo_astream echo_astream_events openai_pipe
          question None None (Some [calculator_tool]) (Some host_emitter) tr
        = (tr, Raised x))
     ∨ streams_with_run_id echo_astream echo_astream_events
         (Some host_emitter) (messages question)
         (fst (extract_event_info (Some host_emitter)))
         (pipe echo_invoke echo_astream echo_astream_events openai_pipe
            question None None (Some [calculator_tool])
            (Some host_emitter))).
Proof.
  apply (run_id_is_first_component_of_event_info echo_invoke echo_astream
           echo_astream_events openai_pipe question None None
           (Some [calculator_tool]) (Some host_emitter)); discriminate.
Defined.

(** The run id of that turn is the ["chat_id"] of the request information. *)
Example host_emitter_run_id :
  fst (extract_event_info (Some host_emitter)) = PyStr "chat-42"
  ∧ run (pipe echo_invoke echo_astream echo_astream_events openai_pipe
           question None None (Some [calculator_tool]) (Some host_emitter))
    = ([Yield "4"], Normal ()).
Proof. split; reflexivity. Qed.

(** Without an emitter, or with one that is not a closure, there is no
    request information and the run id is [None]. *)
Example no_closure_no_event_info :
  extract_event_info None = (PyNone, PyNone)
  ∧ extract_event_info (Some closed_sink) = (PyNone, PyNone)
  ∧ extract_event_info
      (Some {| closure := Some [CellOther (PyInt 3)]; emit := λ _ _, None |})
    = (PyNone, PyNone).
Proof. repeat split. Qed.

(** * Further properties of the tools path *)

(** ** When a turn completes *)

Lemma reconcile_quiet em st tr :
  quiet em ->
  reconcile em st tr
  = (tr ++ (Notify ∘ failed_status <$> elements (started_tools st)),
     Normal ()).
Proof.
  intros Hq. unfold reconcile. generalize (elements (started_tools st)) as l.
  intros l. revert tr. induction l as [|name l IH]; intros tr.
  - simpl. by rewrite app_nil_r.
  - simpl for_each. rewrite bind_unfold, send_status_unfold, Hq, IH.
    by rewrite <- app_assoc.
Qed.

(** With an emitter that never raises, the loop handles every event exactly
    when every tool end finds its tool started. *)
Lemma loop_quiet em evs st tr :
  quiet em ->
  (∃ st', snd (for_each (loop_body em) st evs tr) = Normal st')
  ↔ well_paired (started_tools st) evs = true.
Proof.
  intros Hq. revert st tr. induction evs as [|e evs IH]; intros st tr.
  - simpl. split; [done|]. intros _. by exists st.
  - loop_step em st e tr Hstep. simpl well_paired.
    destruct (loop_body em st e tr) as [tr1 c].
    inversion Hstep as
      [c' Hd| Hd Hs He | Hs H1 | x Hs H1 | He H1 H2 Hin | He H1 H2 Hin
      | x He H1 | x He H1 H2]; subst;
      try (rewrite Hq in *; discriminate);
      try apply delta_content_kind in Hd.
    + rewrite !decide_False by congruence. apply IH.
    + rewrite !decide_False by congruence. apply IH.
    + rewrite decide_True by done. apply IH.
    + rewrite decide_False, decide_True by congruence.
      rewrite andb_true_iff, bool_decide_eq_true, IH.
      simpl. tauto.
    + rewrite decide_False, decide_True by congruence.
      rewrite andb_true_iff, bool_decide_eq_true. simpl. split.
      * intros [st' [=]].
      * tauto.
Qed.

(** X1: with no emitter, or one that never raises, a turn on the tools path
    completes exactly when the stream ends without an exception and every
    [on_tool_end] is for a tool that is started and not yet ended. *)
Theorem turn_completes_iff_well_paired em s :
  quiet em ->
  snd (pipe_tools em s []) = Normal ()
  ↔ failure s = None ∧ well_paired ∅ (items s) = true.
Proof.
  intros Hq. rewrite pipe_tools_unfold.
  pose proof (loop_quiet em (items s) initial_state [] Hq) as Hloop.
  simpl in Hloop. rewrite <- Hloop.
  destruct (for_each _ _ _ _) as [tr [st|x]]; simpl.
  - destruct (failure s) as [x|]; simpl.
    + split; [done|]. by intros [[=] _].
    + rewrite reconcile_quiet by done. simpl. split; [|done].
      intros _. split; [done|]. by exists st.
  - split; [done|]. by intros [_ [st [=]]].
Qed.

Lemma turn_completes_iff_well_paired_witness :
  snd (pipe_tools None
         (ended [tool_start "search"; tool_start "search";
                 tool_end "search" "q" "hit"]) [])
  = Normal ()
  ↔ failure (ended [tool_start "search"; tool_start "search";
                    tool_end "search" "q" "hit"]) = None
    ∧ well_paired ∅ [tool_start "search"; tool_start "search";
                     tool_end "search" "q" "hit"] = true.
Proof.
  apply (turn_completes_iff_well_paired None). intros i ev. reflexivity.
Defined.

(** ** Which tools are reported as failed *)

Lemma loop_still_active N em evs st tr tr' st' :
  for_each (loop_body em) st evs tr = (tr', Normal st') ->
  bool_decide (N ∈ started_tools st')
  = still_active N (bool_decide (N ∈ started_tools st)) evs.
Proof.
  revert st tr. induction evs as [|e evs IH]; intros st tr.
  - simpl. unfold mret, gen_mret, gen_ret. by intros [= <- <-].
  - loop_step em st e tr Hstep. simpl still_active.
    destruct (loop_body em st e tr) as [tr1 [st1|x]]; [|done].
    intros Hrest. rewrite (IH _ _ Hrest). clear IH Hrest.
    inversion Hstep as
      [c' Hd| Hd Hs He | Hs _ | | He _ _ Hin | | |]; subst;
      try apply delta_content_kind in Hd.
    + by rewrite !decide_False by (intros [? _]; congruence).
    + by rewrite !decide_False by (intros [? _]; congruence).
    + simpl started_tools.
      destruct (decide (ev_event e = "on_tool_start" ∧ ev_name e = N))
        as [[_ HN]|Hno].
      * f_equal. apply bool_decide_eq_true_2.
        apply elem_of_union_l, elem_of_singleton_2. done.
      * rewrite decide_False by (intros [? _]; congruence).
        f_equal. apply bool_decide_ext.
        rewrite elem_of_union, elem_of_singleton. split; [|tauto].
        intros [->|?]; [tauto|done].
    + simpl started_tools.
      rewrite decide_False by (intros [? _]; congruence).
      destruct (decide (ev_event e = "on_tool_end" ∧ ev_name e = N))
        as [[_ HN]|Hno].
      * f_equal. apply bool_decide_eq_false_2.
        rewrite elem_of_difference, elem_of_singleton.
        intros [_ ?]. congruence.
      * f_equal. apply bool_decide_ext.
        rewrite elem_of_difference, elem_of_singleton. split; [tauto|].
        intros ?. split; [done|]. intros ->. tauto.
Qed.

(** X2: in a turn that completes, the tools reported as failed are exactly
    those whose last [on_tool_start] or [on_tool_end] event in the stream is
    an [on_tool_start]: a tool that ended, or one started twice and ended
    once, is not reported. *)
Theorem failed_iff_still_active em s tr N :
  pipe_tools em s [] = (tr, Normal ()) ->
  Notify (failed_status N) ∈ tr ↔ still_active N false (items s) = true.
Proof.
  intros Hrun.
  destruct (pipe_tools_normal _ _ _ Hrun) as (tr_loop & st & Hloop & _ & ->).
  assert (bool_decide (N ∈ started_tools st)
          = still_active N false (items s)) as Hact
    by exact (loop_still_active N _ _ _ _ _ _ Hloop).
  rewrite <- Hact, bool_decide_eq_true.
  rewrite elem_of_app, list_elem_of_fmap. split.
  - intros [Hin|(name & [= ->] & Hin)].
    + exfalso. revert Hin.
      pose proof (loop_never_reports_failure em (items s) N true) as Hno.
      by rewrite Hloop in Hno.
    + by apply elem_of_elements.
  - intros Hin. right. exists N. split; [done|]. by apply elem_of_elements.
Qed.

Lemma failed_iff_still_active_witness :
  Notify (failed_status "search")
    ∈ [Yield newline; Notify (SendStatus (Running "search") false);
       Yield newline; Notify (SendStatus (Running "search") false);
       Notify (SendStatus (ToolReturned "search" "hit") true);
       Notify (SendCitation "Tool call 1" "search"
                 "Tool 'search' with inputs q returned hit")]
  ↔ still_active "search" false
      [tool_start "search"; tool_start "search";
       tool_end "search" "q" "hit"] = true.
Proof.
  apply (failed_iff_still_active None
           (ended [tool_start "search"; tool_start "search";
                   tool_end "search" "q" "hit"])).
  vm_compute. reflexivity.
Defined.

(** X3: a 'failed' status is only sent by the reconciliation: wherever one
    occurs in the trace of a turn, the loop has handled every event, the
    stream has ended without an exception, all the effects of the loop come
    before it, it carries [done=True] and its tool is in [started_tools]. *)
Theorem failed_status_only_after_stream_end em s tr1 name done tr2 :
  fst (pipe_tools em s []) = tr1 ++ Notify (SendStatus (ToolFailed name) done)
                               :: tr2 ->
  ∃ tr_loop st,
    for_each (loop_body em) initial_state (items s) [] = (tr_loop, Normal st)
    ∧ failure s = None
    ∧ tr_loop `prefix_of` tr1
    ∧ done = true
    ∧ name ∈ started_tools st.
Proof.
  rewrite pipe_tools_unfold. intros Htr.
  assert (Notify (SendStatus (ToolFailed name) done)
            ∈ tr1 ++ Notify (SendStatus (ToolFailed name) done) :: tr2)
    as Hin by (apply elem_of_app; right; apply list_elem_of_here).
  pose proof (loop_never_reports_failure em (items s) name done) as Hno.
  destruct (for_each _ _ _ _) as [tr_loop [st|x]].
  2: { simpl in *. by rewrite Htr in Hno. }
  destruct (failure s) as [x|].
  { simpl in *. by rewrite Htr in Hno. }
  exists tr_loop, st. split_and!; [done..| | |];
    destruct (reconcile_trace em st tr_loop) as (names & Hpre & Hrec & _);
    rewrite Htr in Hrec; simpl in Hno.
  - revert Hrec. generalize (Notify ∘ failed_status <$> names) as d.
    intros d Hd. clear -Hd Hno.
    revert tr1 Hd. induction tr_loop as [|eff tr_loop IH]; intros tr1 Hd.
    + apply prefix_nil.
    + destruct tr1 as [|eff1 tr1]; simpl in Hd.
      * exfalso. apply Hno. injection Hd as <- _. apply list_elem_of_here.
      * injection Hd as -> Hd. apply prefix_cons, IH; [|done].
        intros ?. apply Hno. by apply list_elem_of_further.
  - assert (Notify (SendStatus (ToolFailed name) done)
              ∈ tr_loop ++ (Notify ∘ failed_status <$> names)) as Hin'
      by (by rewrite <- Hrec).
    apply elem_of_app in Hin' as [?|Hin']; [done|].
    by apply list_elem_of_fmap in Hin' as (n & [= _ ->] & _).
  - assert (Notify (SendStatus (ToolFailed name) done)
              ∈ tr_loop ++ (Notify ∘ failed_status <$> names)) as Hin'
      by (by rewrite <- Hrec).
    apply elem_of_app in Hin' as [?|Hin']; [done|].
    apply list_elem_of_fmap in Hin' as (n & [= -> _] & Hn).
    apply elem_of_elements. destruct Hpre as [k ->].
    apply elem_of_app. by left.
Qed.

Lemma failed_status_only_after_stream_end_witness :
  ∃ tr_loop st,
    for_each (loop_body None) initial_state
      (items (ended [tool_start "search"; text_delta "Sorry."])) []
    = (tr_loop, Normal st)
    ∧ failure (ended [tool_start "search"; text_delta "Sorry."]) = None
    ∧ tr_loop `prefix_of`
        [Yield newline; Notify (SendStatus (Running "search") false);
         Yield "Sorry."]
    ∧ true = true
    ∧ "search" ∈ started_tools st.
Proof.
  apply (failed_status_only_after_stream_end None
           (ended [tool_start "search"; text_delta "Sorry."])
           [Yield newline; Notify (SendStatus (Running "search") false);
            Yield "Sorry."] "search" true []).
  vm_compute. reflexivity.
Defined.

(** ** Streams without tools *)

Lemma loop_text_only em evs st tr :
  Forall no_tool_event evs ->
  for_each (loop_body em) st evs tr
  = (tr ++ (Yield <$> omap delta_content evs), Normal st).
Proof.
  intros Hevs. revert tr. induction Hevs as [|e evs [Hs He] _ IH]; intros tr.
  - simpl. by rewrite app_nil_r.
  - loop_step em st e tr Hstep.
    inversion Hstep as [c' Hd| Hd _ _ | | | | | |]; subst; try done.
    + rewrite IH. simpl. rewrite Hd. simpl. by rewrite <- app_assoc.
    + rewrite IH. simpl. by rewrite Hd.
Qed.

(** X4: on a stream that has no [on_tool_start] and no [on_tool_end] event,
    the tools path yields the contents of the text deltas that have one and
    does nothing else: no notifier call whatever the emitter is, and no
    exception but the one of the stream. *)
Theorem text_only_stream_never_notifies em s :
  Forall no_tool_event (items s) ->
  pipe_tools em s []
  = (Yield <$> omap delta_content (items s),
     match failure s with
     | Some x => Raised x
     | None => Normal ()
     end).
Proof.
  intros Hevs. rewrite pipe_tools_unfold, loop_text_only by done. simpl.
  destruct (failure s); [done|].
  unfold reconcile. simpl. rewrite elements_empty. reflexivity.
Qed.

Lemma text_only_stream_never_notifies_witness :
  pipe_tools (Some closed_sink)
    {| items := [text_delta "4"; mk_event "on_chain_end" "agent" no_data;
                 text_delta EmptyString; text_delta "."];
       failure := Some (HostError "rate limit") |} []
  = (Yield <$> omap delta_content
       [text_delta "4"; mk_event "on_chain_end" "agent" no_data;
        text_delta EmptyString; text_delta "."],
     Raised (HostError "rate limit")).
Proof.
  apply (text_only_stream_never_notifies (Some closed_sink)
    {| items := [text_delta "4"; mk_event "on_chain_end" "agent" no_data;
                 text_delta EmptyString; text_delta "."];
       failure := Some (HostError "rate limit") |}).
  repeat constructor; discriminate.
Defined.

(** ** What the emitter can change *)

(** The loop body without an emitter. *)
Lemma loop_body_without_emitter st e tr :
  loop_body None st e tr =
  match delta_content e with
  | Some content => (tr ++ [Yield content], Normal st)
  | None =>
      if decide (ev_event e = "on_tool_start") then
        (tr ++ [Yield newline; Notify (running_status e)],
         Normal (state_started st e))
      else if decide (ev_event e = "on_tool_end") then
        (tr ++ [Notify (returned_status e);
                Notify (tool_call_citation (S (num_tool_calls st)) e)],
         if decide (ev_name e ∈ started_tools st)
         then Normal (state_ended st e)
         else Raised (KeyError (ev_name e)))
      else (tr, Normal st)
  end.
Proof.
  destruct (loop_body_step None st e tr) as
    [c' Hd| Hd Hs He | Hs _ | x Hs [=] | He _ _ Hin | He _ _ Hin
    | x He [=] | x He _ [=]].
  - by rewrite Hd.
  - by rewrite Hd, !decide_False.
  - destruct (delta_content e) as [c|] eqn:Hd.
    { apply delta_content_kind in Hd. congruence. }
    by rewrite decide_True.
  - destruct (delta_content e) as [c|] eqn:Hd.
    { apply delta_content_kind in Hd. congruence. }
    by rewrite decide_False, !decide_True by congruence.
  - destruct (delta_content e) as [c|] eqn:Hd.
    { apply delta_content_kind in Hd. congruence. }
    by rewrite decide_False, decide_True, decide_False by congruence.
Qed.

Lemma not_delta_of_tool_event e :
  ev_event e = "on_tool_start" ∨ ev_event e = "on_tool_end" ->
  delta_content e = None.
Proof.
  intros Hk. destruct (delta_content e) as [c|] eqn:Hd; [|done].
  apply delta_content_kind in Hd. destruct Hk; congruence.
Qed.

Lemma loop_body_same_or_cut_short em st e tr :
  same_or_cut_short (loop_body em st e tr) (loop_body None st e tr).
Proof.
  rewrite loop_body_without_emitter.
  destruct (loop_body_step em st e tr) as
    [c' Hd| Hd Hs He | Hs _ | x Hs _ | He _ _ Hin | He _ _ Hin
    | x He _ | x He _ _];
    try rewrite (not_delta_of_tool_event e) by auto.
  - left. by rewrite Hd.
  - left. by rewrite Hd, !decide_False.
  - left. by rewrite decide_True.
  - right. rewrite decide_True by done. simpl. eauto.
  - left. by rewrite decide_False, !decide_True by congruence.
  - left. by rewrite decide_False, decide_True, decide_False by congruence.
  - right. rewrite decide_False, decide_True by congruence. simpl.
    split; [|eauto]. apply prefix_app, prefix_cons, prefix_nil.
  - right. rewrite decide_False, decide_True by congruence. simpl. eauto.
Qed.

Lemma loop_same_or_cut_short em evs st tr :
  same_or_cut_short (for_each (loop_body em) st evs tr)
    (for_each (loop_body None) st evs tr).
Proof.
  revert st tr. induction evs as [|e evs IH]; intros st tr; [by left|].
  simpl for_each. rewrite !bind_unfold.
  destruct (loop_body_same_or_cut_short em st e tr) as [->|[Hpre [x Hx]]].
  - destruct (loop_body None st e tr) as [tr1 [st1|x]]; [apply IH|by left].
  - destruct (bind_extends (loop_body None st e)
      (λ st', for_each (loop_body None) st' evs) tr) as [rest Hrest].
    { intros st'. apply extends_for_each. intros. apply extends_loop_body. }
    rewrite bind_unfold in Hrest.
    destruct (loop_body em st e tr) as [tr1 c]. simpl in *. subst c.
    right. simpl. split; [|eauto]. rewrite Hrest. by apply prefix_app_r.
Qed.

(** X5: the emitter can only cut a turn short: the effects of a turn are the
    beginning of the effects of the same turn without an emitter, and a turn
    that completes has exactly the effects it has without an emitter. *)
Theorem emitter_only_cuts_short em s :
  fst (pipe_tools em s []) `prefix_of` fst (pipe_tools None s [])
  ∧ (snd (pipe_tools em s []) = Normal () ->
     pipe_tools em s [] = pipe_tools None s []).
Proof.
  assert (same_or_cut_short (pipe_tools em s []) (pipe_tools None s []))
    as [->|[Hpre [x Hx]]]; [|done|split; [done|congruence]].
  destruct (pipe_tools_extends_loop None s []) as [rest Hrest].
  rewrite !pipe_tools_unfold in *.
  destruct (loop_same_or_cut_short em (items s) initial_state [])
    as [->|[Hpre [x Hx]]].
  - destruct (for_each _ _ _ _) as [tr [st|x]]; [|by left].
    destruct (failure s); [by left|].
    rewrite (reconcile_quiet None) by done.
    destruct (reconcile_trace em st tr) as (names & [k Hk] & Htr & Hall).
    destruct (reconcile em st tr) as [tr' [[]|x]]; simpl in *.
    + left. by rewrite Htr, Hall.
    + right. split; [|eauto]. rewrite Htr, Hk, fmap_app.
      by apply prefix_app, prefix_app_r.
  - destruct (for_each (loop_body em) _ _ _) as [tr c]. simpl in *. subst c.
    right. simpl. split; [|eauto]. rewrite Hrest. by apply prefix_app_r.
Qed.

(** ** The citations of a handled stream *)

Lemma every_tool_end_is_cited_witness :
  citations (fst (pipe_tools None
    (ended [tool_start "search"; tool_end "search" "q" "hit";
            tool_start "search"; tool_end "search" "r" "miss"]) []))
  = expected_citations
      (items (ended [tool_start "search"; tool_end "search" "q" "hit";
                     tool_start "search"; tool_end "search" "r" "miss"])).
Proof.
  apply (every_tool_end_is_cited None
    (ended [tool_start "search"; tool_end "search" "q" "hit";
            tool_start "search"; tool_end "search" "r" "miss"])
    (fst (for_each (loop_body None) initial_state
            [tool_start "search"; tool_end "search" "q" "hit";
             tool_start "search"; tool_end "search" "r" "miss"] []))
    {| num_tool_calls := 2;
       started_tools := ({["search"]} ∪ ({["search"]} ∪ ∅) ∖ {["search"]})
                        ∖ {["search"]} |}).
  vm_compute. reflexivity.
Defined.

(** * Further properties of a turn *)

(** ** The model id *)

Lemma split_on_nonempty sep s : split_on sep s ≠ [].
Proof.
  destruct s as [|c s]; simpl; [done|].
  case_decide; [done|]. by destruct (split_on sep s).
Qed.

Lemma join_cons sep piece pieces :
  pieces ≠ [] ->
  join sep (piece :: pieces) = piece +:+ sep +:+ join sep pieces.
Proof. by destruct pieces. Qed.

(** [sep.join(s.split(sep))] is [s]. *)
Lemma join_split_on sep s :
  join (String sep EmptyString) (split_on sep s) = s.
Proof.
  induction s as [|c s IH]; simpl; [done|].
  case_decide as Hc.
  - rewrite join_cons by apply split_on_nonempty. rewrite IH. by subst.
  - pose proof (split_on_nonempty sep s) as Hne.
    destruct (split_on sep s) as [|piece pieces]; [done|].
    destruct pieces as [|piece' pieces].
    + simpl in *. by rewrite IH.
    + rewrite join_cons in IH by done. rewrite join_cons by done.
      rewrite <- IH. reflexivity.
Qed.

(** X7: the model id of a turn is [".".join(body["model"].split(".")[1:])]:
    what [after_first_dot] computes is the join of all the pieces of the
    split but the first. *)
Theorem after_first_dot_is_join_of_tail s :
  after_first_dot s = join "." (tail (split_on "."%char s)).
Proof.
  induction s as [|c s IH]; simpl; [done|].
  case_decide as Hc.
  - simpl. by rewrite join_split_on.
  - pose proof (split_on_nonempty "."%char s) as Hne.
    destruct (split_on "."%char s) as [|piece pieces]; [done|].
    by rewrite IH.
Qed.

Lemma after_first_dot_app p s :
  occurs "."%char p = false ->
  after_first_dot (p +:+ "." +:+ s) = s.
Proof.
  induction p as [|c p IH]; simpl; [done|].
  intros [Hc Hp]%orb_false_iff. apply bool_decide_eq_false in Hc.
  rewrite decide_False by done. by apply IH.
Qed.

Lemma after_first_dot_no_dot s :
  occurs "."%char s = false -> after_first_dot s = EmptyString.
Proof.
  induction s as [|c s IH]; simpl; [done|].
  intros [Hc Hp]%orb_false_iff. apply bool_decide_eq_false in Hc.
  rewrite decide_False by done. by apply IH.
Qed.

(** ** Errors before any backend is called *)

(** X8: with the valves set and a task other than the probe, a turn for a
    model that [model_sources] does not know raises [KeyError] with the
    model id, what follows the first dot of [body["model"]], before anything
    is yielded or notified; so does a turn whose model has no dot, with the
    empty id, unless the empty id is known. *)
Theorem unknown_model_raises_key_error
    {coroutine_t args_schema_t : Type}
    (invoke : chat_model -> list message -> config_t -> completion string)
    (astream : chat_model -> list message -> config_t -> stream string)
    (astream_events :
       @graph_t coroutine_t args_schema_t -> list message -> config_t ->
       stream event)
    self body user task tools em r :
  task ≠ Some "function_calling" ->
  setup (valves self) = Normal r ->
  model_sources self !! after_first_dot (model body) = None ->
  run (pipe invoke astream astream_events self body user task tools em)
  = ([], Raised (KeyError (after_first_dot (model body))))
  ∧ (occurs "."%char (model body) = false ->
     after_first_dot (model body) = EmptyString).
Proof.
  intros Htask Hsetup Hsource. split; [|apply after_first_dot_no_dot].
  unfold run, pipe. destruct (extract_event_info em) as [message_id other].
  rewrite decide_False by done.
  rewrite bind_unfold, Hsetup. simpl.
  rewrite bind_unfold. unfold subscript. by rewrite Hsource.
Qed.

Lemma unknown_model_raises_key_error_witness :
  run (pipe echo_invoke echo_astream echo_astream_events openai_pipe
         {| model := "react.gpt-5"; messages := [] |} None None None None)
  = ([], Raised (KeyError (after_first_dot "react.gpt-5")))
  ∧ (occurs "."%char "react.gpt-5" = false ->
     after_first_dot "react.gpt-5" = EmptyString).
Proof.
  apply (unknown_model_raises_key_error echo_invoke echo_astream
           echo_astream_events openai_pipe
           {| model := "react.gpt-5"; messages := [] |} None None None None
           {| openai_kwargs :=
                Some {| openai_base_url := "https://api.openai.com/v1";
                        api_key := "sk-test" |};
              ollama_kwargs := None; langfuse_kwargs := None |});
    [discriminate|reflexivity|reflexivity].
Defined.

(** ** The two paths without tools *)

(** X9: a title generation yields one fragment, the whole answer of one
    [model.invoke] whose config has no [run_id], and calls no notifier;
    when the setup, the choice of the model or the backend raises, nothing
    is yielded. The tools and the emitter play no part in it. *)
Theorem title_generation_is_one_blocking_call
    {coroutine_t args_schema_t : Type}
    (invoke : chat_model -> list message -> config_t -> completion string)
    (astream : chat_model -> list message -> config_t -> stream string)
    (astream_events :
       @graph_t coroutine_t args_schema_t -> list message -> config_t ->
       stream event)
    self body user tools em :
  ((∃ x, run (pipe invoke astream astream_events self body user
                (Some "title_generation") tools em) = ([], Raised x))
   ∨ ∃ model callbacks content,
       invoke model (messages body)
         {| callbacks := callbacks; run_id := None |} = Normal content
       ∧ run (pipe invoke astream astream_events self body user
                (Some "title_generation") tools em)
         = ([Yield content], Normal ()))
  ∧ pipe invoke astream astream_events self body user
      (Some "title_generation") tools em
    = pipe invoke astream astream_events self body user
        (Some "title_generation") None None.
Proof.
  unfold run, pipe. simpl extract_event_info.
  destruct (extract_event_info em) as [message_id other].
  destruct (decide (Some "title_generation" = Some "function_calling"))
    as [[=]|_].
  destruct (decide (Some "title_generation" = Some "title_generation"))
    as [_|[]]; [|done].
  split; [|reflexivity].
  unfold subscript, mbind, gen_mbind, gen_bind, mret, gen_mret, gen_ret,
    raise, lift, yield.
  destruct (setup (valves self)) as [self_|x]; [|left; by exists x].
  destruct (model_sources self !! after_first_dot (model body))
    as [source|]; [|left; by eexists].
  destruct (decide (source = "openai")) as [Hopenai|Hollama];
    [destruct (openai_kwargs self_) as [kwargs|]; [|left; by eexists]
    |destruct (ollama_kwargs self_) as [kwargs|]; [|left; by eexists]].
  all: destruct (langfuse_kwargs self_) as [lf|].
  all: try destruct user as [u|].
  all: try destruct (decide (u = ∅)).
  all: try (destruct (u !! "id"); [|left; by eexists]).
  all: match goal with
       | |- context [match ?c with Normal _ => _ | Raised _ => _ end] =>
           destruct c as [content|x] eqn:Hinvoke;
           [right; eexists _, _, content; split; [exact Hinvoke|reflexivity]
           |left; by exists x]
       end.
Qed.

Lemma yield_each_passthrough (s : stream string) :
  async_for (λ _ content, yield content) () s [] = passthrough s.
Proof.
  unfold async_for, passthrough. rewrite bind_unfold.
  assert (∀ l tr, for_each (λ (_ : ()) content, yield content) () l tr
                  = (tr ++ (Yield <$> l), Normal ())) as ->.
  { induction l as [|c l IH]; intros tr; simpl.
    - by rewrite app_nil_r.
    - rewrite bind_unfold. unfold yield at 1. rewrite IH.
      by rewrite <- app_assoc. }
  simpl. by destruct (failure s).
Qed.

(** X10: a turn without tools ([None] or an empty dict) that is neither the
    probe nor a title generation passes the stream of [model.astream]
    through: every chunk content is yielded in order, the empty ones too,
    no notifier is called, and the turn ends as the stream does; the call is
    tagged with the run id. When the setup or the choice of the model
    raises, nothing is yielded. *)
Theorem no_tools_passes_stream_through
    {coroutine_t args_schema_t : Type}
    (invoke : chat_model -> list message -> config_t -> completion string)
    (astream : chat_model -> list message -> config_t -> stream string)
    (astream_events :
       @graph_t coroutine_t args_schema_t -> list message -> config_t ->
       stream event)
    self body user task tools em :
  tools = None ∨ tools = Some [] ->
  task ≠ Some "function_calling" ->
  task ≠ Some "title_generation" ->
  (∃ x, run (pipe invoke astream astream_events self body user task tools em)
        = ([], Raised x))
  ∨ ∃ model callbacks,
      run (pipe invoke astream astream_events self body user task tools em)
      = passthrough
          (astream model (messages body)
             {| callbacks := callbacks;
                run_id := Some (fst (extract_event_info em)) |}).
Proof.
  intros Htools Hprobe Htitle.
  unfold run, pipe. destruct (extract_event_info em) as [message_id other].
  simpl fst.
  destruct (decide (task = Some "function_calling")) as [|_]; [done|].
  destruct (decide (task = Some "title_generation")) as [|_]; [done|].
  unfold subscript, mbind, gen_mbind, gen_bind, mret, gen_mret, gen_ret,
    raise, lift.
  destruct (setup (valves self)) as [self_|x]; [|left; by exists x].
  destruct (model_sources self !! after_first_dot (model body))
    as [source|]; [|left; by eexists].
  destruct (decide (source = "openai")) as [Hopenai|Hollama];
    [destruct (openai_kwargs self_) as [kwargs|]; [|left; by eexists]
    |destruct (ollama_kwargs self_) as [kwargs|]; [|left; by eexists]].
  all: destruct (langfuse_kwargs self_) as [lf|].
  all: try destruct user as [u|].
  all: try destruct (decide (u = ∅)).
  all: try (destruct (u !! "id"); [|left; by eexists]).
  all: right; eexists _, _.
  all: destruct Htools as [->| ->]; apply yield_each_passthrough.
Qed.

Lemma no_tools_passes_stream_through_witness :
  (∃ x, run (pipe echo_invoke echo_astream echo_astream_events openai_pipe
               question None None (Some []) (Some host_emitter))
        = ([], Raised x))
  ∨ ∃ model callbacks,
      run (pipe echo_invoke echo_astream echo_astream_events openai_pipe
             question None None (Some []) (Some host_emitter))
      = passthrough
          (echo_astream model (messages question)
             {| callbacks := callbacks;
                run_id := Some (fst (extract_event_info
                                       (Some host_emitter))) |}).
Proof.
  apply (no_tools_passes_stream_through echo_invoke echo_astream
           echo_astream_events openai_pipe question None None (Some [])
           (Some host_emitter)); [by right|discriminate..].
Defined.

(** ** The user and the trace handler *)

Lemma truthy_false s : truthy s = false ↔ s = EmptyString.
Proof.
  unfold truthy. rewrite bool_decide_eq_false. split.
  - intros Hs. by destruct (decide (s = EmptyString)).
  - intros -> Hs. by apply Hs.
Qed.

Lemma setup_without_langfuse v r :
  LANGFUSE_SECRET_KEY v = EmptyString ∨ LANGFUSE_PUBLIC_KEY v = EmptyString
  ∨ LANGFUSE_URL v = EmptyString ->
  setup v = Normal r -> langfuse_kwargs r = None.
Proof.
  intros Hlf. unfold setup. case_match; [done|]. intros [= <-]. simpl.
  destruct Hlf as [Hlf|[Hlf|Hlf]]; apply truthy_false in Hlf; rewrite Hlf;
    by rewrite ?andb_false_r.
Qed.

(** X11: when one of the three Langfuse valves is empty, no trace handler
    is built, without any error, and the user is never looked at: the turn
    is the same for every [__user__], one without an ["id"] included. *)
Theorem user_is_ignored_without_langfuse
    {coroutine_t args_schema_t : Type}
    (invoke : chat_model -> list message -> config_t -> completion string)
    (astream : chat_model -> list message -> config_t -> stream string)
    (astream_events :
       @graph_t coroutine_t args_schema_t -> list message -> config_t ->
       stream event)
    self body user user' task tools em :
  LANGFUSE_SECRET_KEY (valves self) = EmptyString
  ∨ LANGFUSE_PUBLIC_KEY (valves self) = EmptyString
  ∨ LANGFUSE_URL (valves self) = EmptyString ->
  pipe invoke astream astream_events self body user task tools em
  = pipe invoke astream astream_events self body user' task tools em.
Proof.
  intros Hlf. unfold pipe.
  destruct (extract_event_info em) as [message_id other].
  destruct (decide (task = Some "function_calling")); [done|].
  unfold subscript, mbind, gen_mbind, gen_bind, mret, gen_mret, gen_ret,
    raise, lift.
  destruct (setup (valves self)) as [self_|x] eqn:Hsetup; [|done].
  by rewrite (setup_without_langfuse _ _ Hlf Hsetup).
Qed.

Lemma user_is_ignored_without_langfuse_witness :
  pipe echo_invoke echo_astream echo_astream_events openai_pipe question
    (Some {[ "name" := PyStr "Ada" ]}) None (Some [calculator_tool]) None
  = pipe echo_invoke echo_astream echo_astream_events openai_pipe question
      None None (Some [calculator_tool]) None.
Proof.
  apply (user_is_ignored_without_langfuse echo_invoke echo_astream
           echo_astream_events openai_pipe question
           (Some {[ "name" := PyStr "Ada" ]}) None None
           (Some [calculator_tool]) None).
  by left.
Defined.

(** X12: with Langfuse configured and the model of the turn found, a user
    dict that is not empty and has no ["id"] makes every turn but the probe
    raise [KeyError] for ["id"] before any backend is called, title
    generation included. *)
Theorem user_without_id_raises_key_error
    {coroutine_t args_schema_t : Type}
    (invoke : chat_model -> list message -> config_t -> completion string)
    (astream : chat_model -> list message -> config_t -> stream string)
    (astream_events :
       @graph_t coroutine_t args_schema_t -> list message -> config_t ->
       stream event)
    self body u task tools em r lf source :
  task ≠ Some "function_calling" ->
  setup (valves self) = Normal r ->
  langfuse_kwargs r = Some lf ->
  model_sources self !! after_first_dot (model body) = Some source ->
  (source = "openai" -> is_Some (openai_kwargs r)) ->
  (source ≠ "openai" -> is_Some (ollama_kwargs r)) ->
  u ≠ ∅ ->
  u !! "id" = None ->
  run (pipe invoke astream astream_events self body (Some u) task tools em)
  = ([], Raised (KeyError "id")).
Proof.
  intros Htask Hsetup Hlf Hsource Hopenai Hollama Hu Hid.
  unfold run, pipe. destruct (extract_event_info em) as [message_id other].
  rewrite decide_False by done.
  unfold subscript, mbind, gen_mbind, gen_bind, mret, gen_mret, gen_ret,
    raise, lift.
  rewrite Hsetup, Hsource, Hlf.
  destruct (decide (u = ∅)); [done|]. rewrite Hid.
  destruct (decide (source = "openai")) as [Hs|Hs].
  - by destruct (Hopenai Hs) as [kw ->].
  - by destruct (Hollama Hs) as [kw ->].
Qed.

Lemma user_without_id_raises_key_error_witness :
  run (pipe echo_invoke echo_astream echo_astream_events
         {| valves := both_valves;
            model_sources := {[ "llama3" := "ollama" ]} |}
         {| model := "react.llama3"; messages := [] |}
         (Some {[ "name" := PyStr "Ada" ]}) (Some "title_generation") None
         None)
  = ([], Raised (KeyError "id")).
Proof.
  eapply (user_without_id_raises_key_error echo_invoke echo_astream
            echo_astream_events
            {| valves := both_valves;
               model_sources := {[ "llama3" := "ollama" ]} |}
            {| model := "react.llama3"; messages := [] |}
            {[ "name" := PyStr "Ada" ]} (Some "title_generation") None None
            _ _ "ollama");
    [discriminate|reflexivity|reflexivity|reflexivity|discriminate
    |intros _; by eexists| |reflexivity].
  intros H. by apply (f_equal (λ m : gmap string pyobj, m !! "name")) in H.
Defined.

(** * Properties of the configuration and of the list of models *)

(** ** [setup] and [__init__] *)

Lemma truthy_true s : truthy s = true ↔ s ≠ EmptyString.
Proof. unfold truthy. apply bool_decide_eq_true. Qed.

Lemma setup_without_backend v :
  OPENAI_API_KEY v = EmptyString ∨ OPENAI_BASE_URL v = EmptyString ->
  OLLAMA_URL v = EmptyString ->
  setup v = Raised (ValueError "No API keys provided").
Proof.
  unfold setup. intros Hopenai ->%truthy_false.
  destruct Hopenai as [->%truthy_false| ->%truthy_false];
    by rewrite ?andb_false_r.
Qed.

(** X13: [setup] raises exactly when neither backend is configured, that
    is when the OpenAI key or the OpenAI base URL is empty and the Ollama
    URL is empty too; it raises nothing but [ValueError("No API keys
    provided")], and an incomplete Langfuse configuration is no error. *)
Theorem setup_raises_iff_no_backend v :
  (setup v = Raised (ValueError "No API keys provided")
   ↔ (OPENAI_API_KEY v = EmptyString ∨ OPENAI_BASE_URL v = EmptyString)
     ∧ OLLAMA_URL v = EmptyString)
  ∧ (∀ e, setup v = Raised e -> e = ValueError "No API keys provided").
Proof.
  unfold setup.
  destruct (truthy (OPENAI_API_KEY v)) eqn:Hkey;
    destruct (truthy (OPENAI_BASE_URL v)) eqn:Hbase;
    destruct (truthy (OLLAMA_URL v)) eqn:Hurl; simpl;
    rewrite ?truthy_true, ?truthy_false in *;
    (split; [split; [try done|]|congruence]);
    try (intros [[?|?] ?]; congruence); try (intros _; by auto).
Qed.

(** X14: a pipe created with a non-empty [OPENAI_API_KEY] in the
    environment and neither [OPENAI_BASE_URL] nor [OLLAMA_URL] is set up
    for OpenAI alone, at the default base URL and with that key. *)
Theorem api_key_alone_configures_openai environ key :
  environ !! "OPENAI_API_KEY" = Some key ->
  key ≠ EmptyString ->
  environ !! "OPENAI_BASE_URL" = None ->
  environ !! "OLLAMA_URL" = None ->
  ∃ r, setup (__init__ environ) = Normal r
       ∧ openai_kwargs r
         = Some {| openai_base_url := "https://api.openai.com/v1";
                   api_key := key |}
       ∧ ollama_kwargs r = None.
Proof.
  intros Hkey Hne Hbase Hurl. unfold setup, __init__, getenv. simpl.
  rewrite Hkey, Hbase, Hurl. simpl.
  apply truthy_true in Hne. rewrite Hne. simpl. by eexists.
Qed.

Lemma api_key_alone_configures_openai_witness :
  ∃ r, setup (__init__ {[ "OPENAI_API_KEY" := "sk-live";
                          "MODEL_PREFIX" := "Agent" ]}) = Normal r
       ∧ openai_kwargs r
         = Some {| openai_base_url := "https://api.openai.com/v1";
                   api_key := "sk-live" |}
       ∧ ollama_kwargs r = None.
Proof.
  apply (api_key_alone_configures_openai
           {[ "OPENAI_API_KEY" := "sk-live"; "MODEL_PREFIX" := "Agent" ]}
           "sk-live"); [reflexivity|discriminate|reflexivity..].
Defined.

(** ** [pipes] *)

(** X15: when neither backend is configured, [pipes] returns the single
    entry with id ["error"] and name ["Error: No API keys provided"] and
    leaves [model_sources] as it was, and every turn but the probe raises
    that [ValueError] before anything is yielded. *)
Theorem no_backend_is_an_error_entry_and_a_failed_turn
    {coroutine_t args_schema_t : Type}
    (strip : string -> string)
    (openai_models_list : openai_kwargs_t -> completion (list string))
    (ollama_list : string -> completion (list ollama_model))
    (invoke : chat_model -> list message -> config_t -> completion string)
    (astream : chat_model -> list message -> config_t -> stream string)
    (astream_events :
       @graph_t coroutine_t args_schema_t -> list message -> config_t ->
       stream event)
    self body user task tools em :
  OPENAI_API_KEY (valves self) = EmptyString
  ∨ OPENAI_BASE_URL (valves self) = EmptyString ->
  OLLAMA_URL (valves self) = EmptyString ->
  task ≠ Some "function_calling" ->
  pipes strip openai_models_list ollama_list self
  = ([ {| entry_id := Some "error";
          entry_name := "Error: No API keys provided" |} ], self)
  ∧ run (pipe invoke astream astream_events self body user task tools em)
    = ([], Raised (ValueError "No API keys provided")).
Proof.
  intros Hopenai Hollama Htask.
  assert (setup (valves self) = Raised (ValueError "No API keys provided"))
    as Hsetup by (by apply setup_without_backend).
  split.
  - unfold pipes. by rewrite Hsetup.
  - unfold run, pipe. destruct (extract_event_info em) as [message_id other].
    rewrite decide_False by done. by rewrite bind_unfold, Hsetup.
Qed.

Lemma no_backend_is_an_error_entry_and_a_failed_turn_witness :
  pipes lstrip_spaces list_openai list_ollama
    {| valves := default_valves; model_sources := {[ "old" := "openai" ]} |}
  = ([ {| entry_id := Some "error";
          entry_name := "Error: No API keys provided" |} ],
     {| valves := default_valves; model_sources := {[ "old" := "openai" ]} |})
  ∧ run (pipe echo_invoke echo_astream echo_astream_events
           {| valves := default_valves;
              model_sources := {[ "old" := "openai" ]} |}
           {| model := "react.old"; messages := [] |} None None None None)
    = ([], Raised (ValueError "No API keys provided")).
Proof.
  apply (no_backend_is_an_error_entry_and_a_failed_turn lstrip_spaces
           list_openai list_ollama echo_invoke echo_astream
           echo_astream_events
           {| valves := default_valves;
              model_sources := {[ "old" := "openai" ]} |}
           {| model := "react.old"; messages := [] |} None None None None);
    [by left|reflexivity|discriminate].
Defined.

(** X16: a client that raises counts for [pipes] as a client that lists
    nothing: the exception is swallowed, and the list and [model_sources]
    are those of the other backend alone. *)
Theorem failing_client_lists_nothing
    (strip : string -> string)
    (openai_models_list openai_models_list' :
       openai_kwargs_t -> completion (list string))
    (ollama_list ollama_list' : string -> completion (list ollama_model))
    self :
  (∀ kwargs,
     openai_models_list' kwargs
     = match openai_models_list kwargs with
       | Raised _ => Normal []
       | listed => listed
       end) ->
  (∀ url,
     ollama_list' url
     = match ollama_list url with
       | Raised _ => Normal []
       | listed => listed
       end) ->
  pipes strip openai_models_list ollama_list self
  = pipes strip openai_models_list' ollama_list' self.
Proof.
  intros Hopenai Hollama. unfold pipes.
  destruct (setup (valves self)) as [self_|x]; [|done].
  assert (oai_models_of strip openai_models_list (valves self) self_
          = oai_models_of strip openai_models_list' (valves self) self_)
    as ->.
  { unfold oai_models_of. destruct (openai_kwargs self_) as [kw|]; [|done].
    rewrite Hopenai. by destruct (openai_models_list kw). }
  assert (ollama_models_of ollama_list (valves self) self_
          = ollama_models_of ollama_list' (valves self) self_) as ->.
  { unfold ollama_models_of. destruct (ollama_kwargs self_); [|done].
    rewrite Hollama. by destruct (ollama_list _). }
  done.
Qed.

Lemma failing_client_lists_nothing_witness :
  pipes lstrip_spaces failing_openai list_ollama both_pipe
  = pipes lstrip_spaces (λ _, Normal []) list_ollama both_pipe.
Proof.
  apply (failing_client_lists_nothing lstrip_spaces failing_openai
           (λ _, Normal []) list_ollama list_ollama both_pipe);
    intros; reflexivity.
Defined.

Lemma lookup_constant_map (l : list string) (c k : string) :
  (list_to_map ((λ m, (m, c)) <$> l) : gmap string string) !! k
  = if decide (k ∈ l) then Some c else None.
Proof.
  induction l as [|m l IH].
  - simpl. by rewrite lookup_empty.
  - rewrite fmap_cons, list_to_map_cons, lookup_insert. cbn [fst snd].
    destruct (decide (m = k)) as [->|Hne].
    + by rewrite decide_True by apply list_elem_of_here.
    + rewrite IH. destruct (decide (k ∈ l)) as [Hin|Hin].
      * by rewrite decide_True by (by apply list_elem_of_further).
      * rewrite decide_False; [done|].
        rewrite elem_of_cons. intros [?|?]; [congruence|done].
Qed.

(** The [model_sources] that [pipes] leaves. *)
Lemma pipes_model_sources strip openai_models_list ollama_list self r m :
  setup (valves self) = Normal r ->
  model_sources (snd (pipes strip openai_models_list ollama_list self)) !! m
  = if decide (Some m ∈ ollama_models_of ollama_list (valves self) r)
    then Some "ollama"
    else if decide
              (m ∈ oai_models_of strip openai_models_list (valves self) r)
         then Some "openai"
         else None.
Proof.
  intros Hsetup. unfold pipes. rewrite Hsetup. simpl.
  rewrite lookup_union, !lookup_constant_map.
  destruct (decide (Some m ∈ ollama_models_of ollama_list (valves self) r))
    as [Hin|Hin].
  - rewrite decide_True.
    + by destruct (decide (m ∈ _)).
    + apply list_elem_of_omap. by exists (Some m).
  - rewrite decide_False.
    + by destruct (decide (m ∈ _)).
    + intros (x & Hx & Hid)%list_elem_of_omap. simpl in Hid. by subst.
Qed.

(** X17: after a [pipes] whose setup succeeds, the models that
    [model_sources] knows are exactly the string ids of the entries of the
    list returned. *)
Theorem listed_models_are_the_known_models
    strip openai_models_list ollama_list self r m :
  setup (valves self) = Normal r ->
  (∃ entry, entry ∈ fst (pipes strip openai_models_list ollama_list self)
            ∧ entry_id entry = Some m)
  ↔ is_Some (model_sources
               (snd (pipes strip openai_models_list ollama_list self)) !! m).
Proof.
  intros Hsetup. rewrite (pipes_model_sources _ _ _ _ r) by done.
  unfold pipes. rewrite Hsetup. simpl. split.
  - intros (entry & Hin & Hid).
    apply list_elem_of_fmap in Hin as (m' & -> & Hin). simpl in Hid. subst m'.
    apply elem_of_app in Hin as [Hin|Hin].
    + apply list_elem_of_fmap in Hin as (m' & [= <-] & Hin).
      destruct (decide (Some m ∈ _)); [by eexists|].
      rewrite decide_True by done. by eexists.
    + rewrite decide_True by done. by eexists.
  - intros Hknown.
    exists {| entry_id := Some m;
              entry_name := MODEL_PREFIX (valves self) +:+ "/" +:+ m |}.
    split; [|done].
    apply list_elem_of_fmap. exists (Some m). split; [done|].
    apply elem_of_app.
    destruct (decide (Some m ∈ _)) as [Hin|_]; [by right|].
    destruct (decide (m ∈ _)) as [Hin|_]; [|by destruct Hknown].
    left. apply list_elem_of_fmap. by exists m.
Qed.

Lemma listed_models_are_the_known_models_witness :
  (∃ entry, entry ∈ fst (pipes lstrip_spaces list_openai list_ollama
                           both_pipe)
            ∧ entry_id entry = Some "gpt-4o")
  ↔ is_Some (model_sources
               (snd (pipes lstrip_spaces list_openai list_ollama both_pipe))
             !! "gpt-4o").
Proof.
  eapply (listed_models_are_the_known_models lstrip_spaces list_openai
            list_ollama both_pipe).
  reflexivity.
Defined.

(** X18: a model id that both clients list appears twice in the list of
    [pipes], first as the entry of OpenAI and then as the one of Ollama,
    and [model_sources] keeps ["ollama"] for it. *)
Theorem model_of_both_backends_is_listed_twice
    strip openai_models_list ollama_list self r m :
  setup (valves self) = Normal r ->
  m ∈ oai_models_of strip openai_models_list (valves self) r ->
  Some m ∈ ollama_models_of ollama_list (valves self) r ->
  model_sources (snd (pipes strip openai_models_list ollama_list self)) !! m
  = Some "ollama"
  ∧ ∃ i j, (i < j)%nat
      ∧ fst (pipes strip openai_models_list ollama_list self) !! i
        = Some {| entry_id := Some m;
                  entry_name := MODEL_PREFIX (valves self) +:+ "/" +:+ m |}
      ∧ fst (pipes strip openai_models_list ollama_list self) !! j
        = Some {| entry_id := Some m;
                  entry_name := MODEL_PREFIX (valves self) +:+ "/" +:+ m |}.
Proof.
  intros Hsetup Hoai Hollama. split.
  { rewrite (pipes_model_sources _ _ _ _ r) by done.
    by rewrite decide_True. }
  unfold pipes. rewrite Hsetup. simpl.
  apply list_elem_of_lookup in Hoai as [i Hi].
  apply list_elem_of_lookup in Hollama as [j Hj].
  exists i, (length (oai_models_of strip openai_models_list (valves self) r)
             + j).
  pose proof (lookup_lt_Some _ _ _ Hi) as Hlt. split_and!.
  - lia.
  - rewrite list_lookup_fmap, lookup_app_l by (by rewrite length_fmap).
    by rewrite list_lookup_fmap, Hi.
  - rewrite list_lookup_fmap.
    rewrite lookup_app_r by (rewrite length_fmap; lia).
    rewrite length_fmap.
    replace (length _ + j - length _) with j by lia. by rewrite Hj.
Qed.

Lemma model_of_both_backends_is_listed_twice_witness :
  model_sources (snd (pipes lstrip_spaces list_openai list_ollama both_pipe))
    !! "gpt-4"
  = Some "ollama"
  ∧ ∃ i j, (i < j)%nat
      ∧ fst (pipes lstrip_spaces list_openai list_ollama both_pipe) !! i
        = Some {| entry_id := Some "gpt-4";
                  entry_name := MODEL_PREFIX (valves both_pipe) +:+ "/"
                                +:+ "gpt-4" |}
      ∧ fst (pipes lstrip_spaces list_openai list_ollama both_pipe) !! j
        = Some {| entry_id := Some "gpt-4";
                  entry_name := MODEL_PREFIX (valves both_pipe) +:+ "/"
                                +:+ "gpt-4" |}.
Proof.
  eapply (model_of_both_backends_is_listed_twice lstrip_spaces list_openai
            list_ollama both_pipe _ "gpt-4").
  - reflexivity.
  - vm_compute. apply list_elem_of_further, list_elem_of_here.
  - vm_compute. apply list_elem_of_further, list_elem_of_here.
Defined.

(** ** From the list of models to a turn *)

Lemma pipes_valves strip openai_models_list ollama_list self :
  valves (snd (pipes strip openai_models_list ollama_list self))
  = valves self.
Proof. unfold pipes. by destruct (setup (valves self)). Qed.

Lemma setup_kwargs v r :
  setup v = Normal r ->
  (∀ kw, openai_kwargs r = Some kw ->
         kw = {| openai_base_url := OPENAI_BASE_URL v;
                 api_key := OPENAI_API_KEY v |})
  ∧ (∀ kw, ollama_kwargs r = Some kw ->
           kw = {| ollama_base_url := OLLAMA_URL v |}).
Proof.
  unfold setup.
  destruct (truthy (OPENAI_API_KEY v)), (truthy (OPENAI_BASE_URL v)),
    (truthy (OLLAMA_URL v)); simpl; intros [= <-]; simpl;
    split; intros kw [= <-]; done.
Qed.

(** X19: a model that [pipes] lists can be used for a turn. With the setup
    succeeding, for the id [m] of an entry of the list and a turn on [self]
    as [pipes] leaves it, whose model is [m] behind a prefix without dot,
    whose task is neither the probe nor a title generation and whose user
    is [None], empty or has an ["id"]: the turn raises nothing of its own
    and is a streaming call of the backend of [m], [ChatOllama] at the
    Ollama URL when Ollama listed [m], [ChatOpenAI] at the OpenAI base URL
    and key when only OpenAI did, with the Langfuse handler in its config
    when Langfuse is configured and with the run id. Without tools ([None]
    or an empty dict) it passes [model.astream] through; with tools it is
    the loop over the events of the agent built from that model and one
    [StructuredTool] for each item of [__tools__], in their order. *)
Theorem listed_model_reaches_its_backend
    {coroutine_t args_schema_t : Type}
    (strip : string -> string)
    (openai_models_list : openai_kwargs_t -> completion (list string))
    (ollama_list : string -> completion (list ollama_model))
    (invoke : chat_model -> list message -> config_t -> completion string)
    (astream : chat_model -> list message -> config_t -> stream string)
    (astream_events :
       @graph_t coroutine_t args_schema_t -> list message -> config_t ->
       stream event)
    self r entry m prefix body user task tools em :
  setup (valves self) = Normal r ->
  entry ∈ fst (pipes strip openai_models_list ollama_list self) ->
  entry_id entry = Some m ->
  occurs "."%char prefix = false ->
  model body = prefix +:+ "." +:+ m ->
  task ≠ Some "function_calling" ->
  task ≠ Some "title_generation" ->
  user_has_id user ->
  pipe invoke astream astream_events
    (snd (pipes strip openai_models_list ollama_list self))
    body user task tools em
  = let model :=
      if decide (Some m ∈ ollama_models_of ollama_list (valves self) r)
      then ChatOllama m {| ollama_base_url := OLLAMA_URL (valves self) |}
      else ChatOpenAI m {| openai_base_url := OPENAI_BASE_URL (valves self);
                           api_key := OPENAI_API_KEY (valves self) |} in
    let config :=
      {| callbacks := callbacks_of (langfuse_kwargs r) user;
         run_id := Some (fst (extract_event_info em)) |} in
    match tools with
    | None | Some [] =>
        async_for (λ _ content, yield content) ()
          (astream model (messages body) config)
    | Some tool_items =>
        pipe_tools em
          (astream_events
             (create_react_agent model
                ((λ '(key, value),
                    {| tool_name := key;
                       coroutine := callable value;
                       args_schema := pydantic_model value;
                       description := spec_description value |})
                   <$> tool_items))
             (messages body) config)
    end.
Proof.
  intros Hsetup Hentry Hid Hprefix Hmodel Hprobe Htitle Huser.
  pose proof (pipes_model_sources strip openai_models_list ollama_list
                self r m Hsetup) as Hsource.
  assert (Some m ∉ ollama_models_of ollama_list (valves self) r ->
          m ∈ oai_models_of strip openai_models_list (valves self) r)
    as Hoai.
  { intros Hno. revert Hentry. unfold pipes. rewrite Hsetup. simpl.
    intros (m' & -> & Hin)%list_elem_of_fmap. simpl in Hid. subst m'.
    apply elem_of_app in Hin as [Hin|Hin]; [|done].
    by apply list_elem_of_fmap in Hin as (m' & [= <-] & Hin). }
  destruct (setup_kwargs _ _ Hsetup) as [Hokw Holkw].
  cbv zeta. unfold pipe, callbacks_of.
  destruct (extract_event_info em) as [message_id other]. simpl fst.
  destruct (decide (task = Some "function_calling")) as [|_]; [done|].
  destruct (decide (task = Some "title_generation")) as [|_]; [done|].
  unfold subscript, mbind, gen_mbind, gen_bind, mret, gen_mret, gen_ret,
    raise, lift.
  rewrite pipes_valves, Hsetup, Hmodel, after_first_dot_app, Hsource by done.
  destruct (decide (Some m ∈ ollama_models_of ollama_list (valves self) r))
    as [Hin|Hin].
  - rewrite decide_False by discriminate.
    assert (is_Some (ollama_kwargs r)) as [kw Hkw].
    { revert Hin. unfold ollama_models_of.
      destruct (ollama_kwargs r); [by eexists|].
      by intros ?%not_elem_of_nil. }
    rewrite Hkw, (Holkw kw Hkw).
    destruct (langfuse_kwargs r) as [lf|].
    all: try destruct user as [u|].
    all: try (destruct Huser as [->|[id Hu]];
              [rewrite decide_True by done
              |destruct (decide (u = ∅)) as [->|]; [|simpl; rewrite Hu]]).
    all: by destruct tools as [[|item items]|].
  - rewrite decide_True by auto. rewrite decide_True by done.
    assert (is_Some (openai_kwargs r)) as [kw Hkw].
    { specialize (Hoai Hin). revert Hoai. unfold oai_models_of.
      destruct (openai_kwargs r); [by eexists|].
      by intros ?%not_elem_of_nil. }
    rewrite Hkw, (Hokw kw Hkw).
    destruct (langfuse_kwargs r) as [lf|].
    all: try destruct user as [u|].
    all: try (destruct Huser as [->|[id Hu]];
              [rewrite decide_True by done
              |destruct (decide (u = ∅)) as [->|]; [|simpl; rewrite Hu]]).
    all: by destruct tools as [[|item items]|].
Qed.

Lemma listed_model_reaches_its_backend_witness :
  pipe echo_invoke echo_astream echo_astream_events
    (snd (pipes lstrip_spaces list_openai list_ollama both_pipe))
    {| model := "react.gpt-4o"; messages := [] |}
    (Some {[ "id" := PyStr "user-7" ]}) None (Some [calculator_tool]) None
  = pipe_tools None
      (echo_astream_events
         (create_react_agent
            (ChatOpenAI "gpt-4o"
               {| openai_base_url := "https://api.openai.com/v1";
                  api_key := "sk-test" |})
            [ {| tool_name := fst calculator_tool;
                 coroutine := callable (snd calculator_tool);
                 args_schema := pydantic_model (snd calculator_tool);
                 description := spec_description (snd calculator_tool) |} ])
         []
         {| callbacks :=
              [ {| handler_kwargs :=
                     {| secret_key := "sk-lf"; public_key := "pk-lf";
                        host := "https://cloud.langfuse.com" |};
                   user_id := Some (PyStr "user-7") |} ];
            run_id := Some PyNone |}).
Proof.
  refine (eq_trans
    (listed_model_reaches_its_backend lstrip_spaces list_openai
       list_ollama echo_invoke echo_astream echo_astream_events
       both_pipe both_setup
       {| entry_id := Some "gpt-4o"; entry_name := "ReAct/gpt-4o" |}
       "gpt-4o" "react" {| model := "react.gpt-4o"; messages := [] |}
       (Some {[ "id" := PyStr "user-7" ]}) None (Some [calculator_tool])
       None _ _ _ _ _ _ _ _) _).
  - reflexivity.
  - vm_compute. apply list_elem_of_here.
  - reflexivity.
  - reflexivity.
  - reflexivity.
  - discriminate.
  - discriminate.
  - right. by eexists.
  - reflexivity.
Defined.

(** X20: a model that is not among the enabled models and that Ollama does
    not list is refused: on [self] as [pipes] leaves it, every turn but the
    probe for it raises [KeyError] with its id before any backend is
    called, whether or not OpenAI offers the model. *)
Theorem model_not_enabled_is_refused
    {coroutine_t args_schema_t : Type}
    (strip : string -> string)
    (openai_models_list : openai_kwargs_t -> completion (list string))
    (ollama_list : string -> completion (list ollama_model))
    (invoke : chat_model -> list message -> config_t -> completion string)
    (astream : chat_model -> list message -> config_t -> stream string)
    (astream_events :
       @graph_t coroutine_t args_schema_t -> list message -> config_t ->
       stream event)
    self r m prefix body user task tools em :
  setup (valves self) = Normal r ->
  m ∉ strip <$> split_on ","%char (ENABLED_MODELS (valves self)) ->
  Some m ∉ ollama_models_of ollama_list (valves self) r ->
  occurs "."%char prefix = false ->
  model body = prefix +:+ "." +:+ m ->
  task ≠ Some "function_calling" ->
  run (pipe invoke astream astream_events
         (snd (pipes strip openai_models_list ollama_list self))
         body user task tools em)
  = ([], Raised (KeyError m)).
Proof.
  intros Hsetup Hdisabled Hollama Hprefix Hmodel Hprobe.
  pose proof (pipes_model_sources strip openai_models_list ollama_list
                self r m Hsetup) as Hsource.
  rewrite decide_False in Hsource by done.
  rewrite decide_False in Hsource.
  2: { unfold oai_models_of.
       destruct (openai_kwargs r); [|apply not_elem_of_nil].
       destruct (openai_models_list _); [|apply not_elem_of_nil].
       rewrite list_elem_of_filter. tauto. }
  unfold run, pipe. destruct (extract_event_info em) as [message_id other].
  rewrite decide_False by done.
  rewrite bind_unfold, pipes_valves, Hsetup. simpl.
  rewrite bind_unfold. unfold subscript.
  by rewrite Hmodel, after_first_dot_app, Hsource.
Qed.

Lemma model_not_enabled_is_refused_witness :
  run (pipe echo_invoke echo_astream echo_astream_events
         (snd (pipes lstrip_spaces list_openai list_ollama both_pipe))
         {| model := "react.gpt-3.5-turbo"; messages := [] |} None None None
         None)
  = ([], Raised (KeyError "gpt-3.5-turbo")).
Proof.
  apply (model_not_enabled_is_refused lstrip_spaces list_openai list_ollama
           echo_invoke echo_astream echo_astream_events both_pipe both_setup
           "gpt-3.5-turbo" "react"
           {| model := "react.gpt-3.5-turbo"; messages := [] |} None None
           None None);
    [reflexivity| | |reflexivity|reflexivity|discriminate].
  - apply (bool_decide_eq_false_1 _). reflexivity.
  - apply (bool_decide_eq_false_1 _). reflexivity.
Defined.
